(** * VGG16StyleTransfer: a shallow embedding of [models/VGG16StyleTransfer.py]

    The development follows the Python class method by method:
    the precision selector and the weight transplant of [__init__],
    [get_features] with its local [gram_calc], [get_loss], the optimisation
    loop [training], and the two drivers [inferOnVideo] and [inferOnImage].

    Python exceptions are results of an error monad.  Tensors are a shape and
    a row-major buffer, as TensorFlow and NumPy store them.  The element type
    is a parameter (the class [Float]): arithmetic statements are proved at
    the instance of exact rationals, where rounding does not exist, and range
    statements at the instance [fp], which adds the IEEE special values
    (both infinities and NaN) to the rationals. *)

From Stdlib Require Import QArith Qminmax Lqa ZArith Lia.
From stdpp Require Import base list strings gmap.

Local Open Scope Z_scope.

(** ** Python exceptions *)

Inductive exn : Type :=
  | ValueError
  | IndexError
  | ZeroDivisionError
  | FileNotFoundError
  | InvalidArgumentError
  | Exception (msg : string).

Inductive result (A : Type) : Type :=
  | Ok (a : A)
  | Raise (e : exn).

Arguments Ok {A} a.
Arguments Raise {A} e.

#[global] Instance result_ret : MRet result := fun A a => Ok a.
#[global] Instance result_bind : MBind result := fun A B f m =>
  match m with
  | Ok a => f a
  | Raise e => Raise e
  end.

(** Left fold with exceptions: the body of a [for] loop that threads a state. *)
Fixpoint foldM {S X : Type} (f : S -> X -> result S) (s : S) (l : list X) : result S :=
  match l with
  | [] => Ok s
  | x :: l' => s' ← f s x; foldM f s' l'
  end.

(** [n] rounds of a loop body that does not look at the loop variable. *)
Fixpoint iterM {S : Type} (n : nat) (f : S -> result S) (s : S) : result S :=
  match n with
  | O => Ok s
  | Datatypes.S n' => s' ← f s; iterM n' f s'
  end.

(** ** Element types *)

(** The operations the program applies to tensor elements. *)
Class Float (A : Type) : Type := {
  zero : A;
  add : A -> A -> A;
  sub : A -> A -> A;
  mul : A -> A -> A;
  div : A -> A -> A;
  minimum : A -> A -> A;
  maximum : A -> A -> A;
  of_nat : nat -> A;       (* tf.cast of an integer, Python int operands *)
  of_Q : Q -> A            (* float literals *)
}.

(** Exact arithmetic: what the formulas mean when rounding is left out. *)
#[global] Instance Q_Float : Float Q := {|
  zero := 0%Q;
  add := Qplus;
  sub := Qminus;
  mul := Qmult;
  div := Qdiv;
  minimum := Qmin;
  maximum := Qmax;
  of_nat := fun n => inject_Z (Z.of_nat n);
  of_Q := fun q => q
|}.

(** Floating-point values with their special values.  Finite values are
    rationals (no rounding, no signed zero); the infinities and NaN follow
    IEEE 754. *)
Inductive fp : Type :=
  | Fin (q : Q)
  | PInf
  | NInf
  | NaN.

Definition fneg (x : fp) : fp :=
  match x with
  | Fin q => Fin (- q)%Q
  | PInf => NInf
  | NInf => PInf
  | NaN => NaN
  end.

Definition fadd (x y : fp) : fp :=
  match x, y with
  | NaN, _ | _, NaN => NaN
  | PInf, NInf | NInf, PInf => NaN
  | PInf, _ | _, PInf => PInf
  | NInf, _ | _, NInf => NInf
  | Fin a, Fin b => Fin (a + b)%Q
  end.

Definition fsub (x y : fp) : fp := fadd x (fneg y).

(** The infinity with the sign of [c], NaN when [c] is zero. *)
Definition signed_inf (c : comparison) : fp :=
  match c with
  | Gt => PInf
  | Lt => NInf
  | Eq => NaN
  end.

Definition fsign (x : fp) : comparison :=
  match x with
  | Fin q => (q ?= 0)%Q
  | PInf => Gt
  | NInf => Lt
  | NaN => Eq
  end.

Definition sign_mul (c d : comparison) : comparison :=
  match c, d with
  | Eq, _ | _, Eq => Eq
  | Gt, Gt | Lt, Lt => Gt
  | _, _ => Lt
  end.

Definition fmul (x y : fp) : fp :=
  match x, y with
  | NaN, _ | _, NaN => NaN
  | Fin a, Fin b => Fin (a * b)%Q
  | _, _ => signed_inf (sign_mul (fsign x) (fsign y))
  end.

Definition fdiv (x y : fp) : fp :=
  match x, y with
  | NaN, _ | _, NaN => NaN
  | Fin a, Fin b => if Qeq_bool b 0 then signed_inf (a ?= 0)%Q else Fin (a / b)%Q
  | Fin _, _ => Fin 0
  | _, Fin b => signed_inf (sign_mul (fsign x) (if Qeq_bool b 0 then Gt else (b ?= 0)%Q))
  | _, _ => NaN
  end.

(** [x <= y] as the hardware compares: false as soon as one side is NaN. *)
Definition fle (x y : fp) : bool :=
  match x, y with
  | NaN, _ | _, NaN => false
  | NInf, _ | _, PInf => true
  | Fin a, Fin b => Qle_bool a b
  | _, _ => false
  end.

(** [tf.minimum] and [tf.maximum] return NaN when either operand is NaN. *)
Definition fminimum (x y : fp) : fp :=
  match x, y with
  | NaN, _ | _, NaN => NaN
  | _, _ => if fle x y then x else y
  end.

Definition fmaximum (x y : fp) : fp :=
  match x, y with
  | NaN, _ | _, NaN => NaN
  | _, _ => if fle x y then y else x
  end.

#[global] Instance fp_Float : Float fp := {|
  zero := Fin 0;
  add := fadd;
  sub := fsub;
  mul := fmul;
  div := fdiv;
  minimum := fminimum;
  maximum := fmaximum;
  of_nat := fun n => Fin (inject_Z (Z.of_nat n));
  of_Q := Fin
|}.

(** ** Tensors *)

Record Tensor (A : Type) : Type := mkTensor {
  shape : list nat;
  data : list A            (* row-major *)
}.

Arguments mkTensor {A} shape data.
Arguments shape {A} t.
Arguments data {A} t.

(** Number of elements of a tensor of the given shape. *)
Definition numel (s : list nat) : nat := foldr Nat.mul 1%nat s.

Definition well_shaped {A : Type} (t : Tensor A) : Prop :=
  length (data t) = numel (shape t).

Definition shape_eqb (s1 s2 : list nat) : bool := bool_decide (s1 = s2).

(** [tf.squeeze]: drop the dimensions of size 1. *)
Definition squeeze {A : Type} (t : Tensor A) : Tensor A :=
  mkTensor (filter (fun d => d ≠ 1%nat) (shape t)) (data t).

Section TensorOps.
Context {A : Type} {FA : Float A}.

Definition fsum (l : list A) : A := foldr add zero l.

(** [t / c] for a Python scalar [c]. *)
Definition tdiv_scalar (t : Tensor A) (c : A) : Tensor A :=
  mkTensor (shape t) (map (fun v => div v c) (data t)).

(** [a - b].  Operands of one shape are subtracted element by element.
    For operands of different shapes TensorFlow broadcasts when the shapes
    are compatible and raises InvalidArgumentError when they are not; only
    the error is modelled, so statements about [tsub] are made for
    operands of one shape. *)
Definition tsub (a b : Tensor A) : result (Tensor A) :=
  if shape_eqb (shape a) (shape b)
  then Ok (mkTensor (shape a) (zip_with sub (data a) (data b)))
  else Raise InvalidArgumentError.

Definition square (t : Tensor A) : Tensor A :=
  mkTensor (shape t) (map (fun v => mul v v) (data t)).

Definition reduce_sum (t : Tensor A) : A := fsum (data t).

Definition reduce_mean (t : Tensor A) : A :=
  div (fsum (data t)) (of_nat (numel (shape t))).

(** [tf.add_n]: the sum of a list of tensors (here always scalars); an
    empty list is refused with ValueError. *)
Definition add_n (inputs : list A) : result A :=
  match inputs with
  | [] => Raise ValueError
  | x :: rest => Ok (foldl add x rest)
  end.

(** [tf.clip_by_value]: [minimum] against the upper bound, then [maximum]
    against the lower bound. *)
Definition clip_by_value (t : Tensor A) (clip_value_min clip_value_max : A) : Tensor A :=
  mkTensor (shape t)
    (map (fun v => maximum (minimum v clip_value_max) clip_value_min) (data t)).

(** Element [b, i, j, c] of a rank-4 tensor with trailing dimensions
    [H], [W], [C]. *)
Definition at4 (t : Tensor A) (H W C b i j c : nat) : A :=
  nth (((b * H + i) * W + j) * C + c)%nat (data t) zero.

(** [tf.linalg.einsum('bijc,bijd->bcd', x, y)]. *)
Definition einsum_bijc_bijd_bcd (x y : Tensor A) : result (Tensor A) :=
  match shape x, shape y with
  | [B; H; W; C], [B'; H'; W'; D] =>
      if bool_decide (B = B' ∧ H = H' ∧ W = W')
      then Ok (mkTensor [B; C; D]
             (b ← seq 0 B; c ← seq 0 C; d ← seq 0 D;
              [fsum (i ← seq 0 H; j ← seq 0 W;
                     [mul (at4 x H W C b i j c) (at4 y H W D b i j d)])]))
      else Raise InvalidArgumentError
  | _, _ => Raise InvalidArgumentError
  end.

(** The local function [gram_calc] of [get_features]. *)
Definition gram_calc (data : Tensor A) : result (Tensor A) :=
  g ← einsum_bijc_bijd_bcd data data;
  Ok (tdiv_scalar g (of_nat (nth 1 (shape data) 0%nat * nth 2 (shape data) 0%nat))).

(** [outputs[-1]]. *)
Definition py_last {X : Type} (l : list X) : result X :=
  match last l with
  | Some x => Ok x
  | None => Raise IndexError
  end.

Section Model.
(** [self.model]: the frozen feature extractor, style taps first and the
    content tap last. *)
Variable model : Tensor A -> list (Tensor A).

Definition get_features (data : Tensor A)
  : result (list (Tensor A) * Tensor A) :=
  let outputs := model (tdiv_scalar data (of_Q 255)) in
  style_features ← mapM gram_calc (removelast outputs);
  content ← py_last outputs;
  Ok (style_features, content).
End Model.

Definition get_loss (style_target style_feature : list (Tensor A))
    (content_target content_feature : Tensor A) : result A :=
  terms ← mapM (fun '(features, targets) =>
                  d ← tsub features targets;
                  Ok (reduce_mean (square d)))
               (zip style_feature style_target);
  style_loss ← add_n terms;
  d ← tsub content_feature content_target;
  content_loss ← add_n [mul (of_Q (1 # 2)) (reduce_sum (square d))];
  Ok (add (mul (of_nat 1) style_loss)
          (mul (of_Q (1 # 1000000000000000000000000000000)) content_loss)).
End TensorOps.

(** ** The optimisation loop *)

Section Training.
Context {A : Type} {FA : Float A}.

(** [self.model]. *)
Variable model : Tensor A -> list (Tensor A).
(** [tape.gradient(loss, generated_image)]: the derivative, at the current
    image, of the computation recorded under the tape. *)
Variable tape_gradient : (Tensor A -> result A) -> Tensor A -> Tensor A.
(** The caller's optimizer: an object with a state of its own, whose
    [apply_gradients] updates that state and the variable. *)
Variable Optimizer : Type.
Variable apply_gradients : Optimizer -> Tensor A -> Tensor A -> Optimizer * Tensor A.
(** [tf.keras.preprocessing.image.array_to_img]. *)
Variable PILImage : Type.
Variable array_to_img : Tensor A -> PILImage.

(** What the loop of [training] reads and writes. *)
Record TrainState : Type := mkTrainState {
  generated_image : Tensor A;
  optimizer : Optimizer;
  images : list PILImage
}.

(** The computation recorded under the gradient tape. *)
Definition recorded_loss (style_targets : list (Tensor A)) (content_targets : Tensor A)
    (generated : Tensor A) : result A :=
  '(style_features, content_features) ← get_features model generated;
  get_loss style_targets style_features content_targets content_features.

(** One round of the [for n in range(epochs)] loop. *)
Definition training_step (style_targets : list (Tensor A)) (content_targets : Tensor A)
    (s : TrainState) : result TrainState :=
  loss ← recorded_loss style_targets content_targets (generated_image s);
  let gradients :=
    tape_gradient (recorded_loss style_targets content_targets) (generated_image s) in
  let '(optimizer', updated) :=
    apply_gradients (optimizer s) gradients (generated_image s) in
  let clipped := clip_by_value updated (of_Q 0) (of_Q 255) in
  let tmp_img := clipped in
  Ok (mkTrainState clipped optimizer' (images s ++ [array_to_img (squeeze tmp_img)])).

(** The state on entry of the loop. *)
Definition training_init (content_image : Tensor A) (opt : Optimizer) : TrainState :=
  mkTrainState content_image opt [array_to_img (squeeze content_image)].

(** [training]; the optimizer is a Python object that the call mutates, so
    its final state is returned next to the list of images. *)
Definition training (style_image content_image : Tensor A) (opt : Optimizer)
    (epochs : Z) : result (Optimizer * list PILImage) :=
  '(style_targets, _) ← get_features model style_image;
  '(_, content_targets) ← get_features model content_image;
  s ← iterM (Z.to_nat epochs) (training_step style_targets content_targets)
            (training_init content_image opt);
  Ok (optimizer s, images s).
End Training.

Arguments TrainState A Optimizer PILImage : clear implicits.
Arguments mkTrainState {A Optimizer PILImage}.
Arguments generated_image {A Optimizer PILImage}.
Arguments optimizer {A Optimizer PILImage}.
Arguments images {A Optimizer PILImage}.

Arguments recorded_loss {A FA} model.
Arguments training_step {A FA} model tape_gradient {Optimizer} apply_gradients {PILImage} array_to_img.
Arguments training_init {A Optimizer PILImage} array_to_img.
Arguments training {A FA} model tape_gradient {Optimizer} apply_gradients {PILImage} array_to_img.

(** ** Construction: precision selector and weight transplant *)

Inductive DType : Type :=
  | tf_float32
  | tf_float16.

(** Lines 31-37 of [__init__].  The second component is the global
    [tf.keras.backend.floatx()] after the call. *)
Definition select_floatType (floatType : Z) (floatx : string) : result (DType * string) :=
  if bool_decide (floatType = 32) then Ok (tf_float32, floatx)
  else if bool_decide (floatType = 16) then Ok (tf_float16, "float16"%string)
  else Raise (Exception "floatType should be either 32 or 16").

Section Construction.
Context {A : Type}.

(** A Keras layer, as far as the constructor touches it. *)
Record Layer : Type := mkLayer {
  weights : list (Tensor A);
  trainable : bool
}.

(** [Model.get_layer(index=...)]: ValueError when the model has no layer
    of that index. *)
Definition get_layer {X : Type} (layers : list X) (index : nat) : result X :=
  match layers !! index with
  | Some l => Ok l
  | None => Raise ValueError
  end.

(** [Layer.set_weights]: ValueError unless the arrays given are as many as
    the layer's own and of the same shapes. *)
Definition set_weights (l : Layer) (ws : list (Tensor A)) : result Layer :=
  if bool_decide (map shape ws = map shape (weights l))
  then Ok (mkLayer ws (trainable l))
  else Raise ValueError.

Definition freeze (l : Layer) : Layer := mkLayer (weights l) false.

(** The variables of the loop of lines 62-74. *)
Record TransplantState : Type := mkTransplantState {
  ssd_seq_idx : nat;
  ssd_layer_idx : nat;
  VGG16_tilStage5 : list Layer
}.

(** One round of [for i in range(len(self.VGG16_tilStage5.layers))]. *)
Definition transplant_step (SSD_backbone : list (list Layer))
    (s : TransplantState) (i : nat) : result TransplantState :=
  let layer_idx := i in
  let '(seq_idx, layer_idx) :=
    if bool_decide (13 ≤ i)%nat then (1%nat, (layer_idx - 13)%nat)
    else (ssd_seq_idx s, layer_idx) in
  dst ← get_layer (VGG16_tilStage5 s) i;
  stack ← get_layer SSD_backbone seq_idx;
  src ← get_layer stack layer_idx;
  dst' ← set_weights dst (weights src);
  let layers1 := <[i := dst']> (VGG16_tilStage5 s) in
  frozen ← get_layer layers1 i;
  let layers2 := <[i := freeze frozen]> layers1 in
  Ok (mkTransplantState seq_idx layer_idx layers2).

(** The first [n] rounds of the loop. *)
Definition transplant_upto (n : nat) (SSD_backbone : list (list Layer))
    (target : list Layer) : result TransplantState :=
  foldM (transplant_step SSD_backbone) (mkTransplantState 0 0 target) (seq 0 n).

(** The whole loop: the layers of the new VGG-16 after it. *)
Definition transplant (SSD_backbone : list (list Layer)) (target : list Layer)
    : result (list Layer) :=
  s ← transplant_upto (length target) SSD_backbone target;
  Ok (VGG16_tilStage5 s).

(** The index mapping as the specification words it. *)
Definition mapIndex (i : nat) : nat * nat :=
  if bool_decide (i < 13)%nat then (0%nat, i) else (1%nat, (i - 13)%nat).

(** The backbone layer the mapping designates for target layer [i]. *)
Definition source_layer (SSD_backbone : list (list Layer)) (i : nat) : option Layer :=
  stack ← SSD_backbone !! (mapIndex i).1;
  stack !! (mapIndex i).2.

(** A layer applied to an activation. *)
Variable layer_call : Layer -> Tensor A -> Tensor A.

(** Lines 79-98: the graph of [self.model].  The activation is recorded as
    a style tap before each of the layers 1 to 6, the layers 7 to
    [len - 3] follow, and the activation reached is the content tap. *)
Definition build_model (layers : list Layer) : result (Tensor A -> list (Tensor A)) :=
  first ← get_layer layers 0;
  style_part ← mapM (get_layer layers) (seq 1 6);
  rest ← mapM (get_layer layers) (seq 7 (length layers - 2 - 7));
  Ok (fun inputs =>
        let x := layer_call first inputs in
        let '(style_layers, x) :=
          foldl (fun '(taps, x) l => (taps ++ [x], layer_call l x)) ([], x) style_part in
        let x := foldl (fun x l => layer_call l x) x rest in
        let content_layers := [x] in
        style_layers ++ content_layers).

(** The object constructed. *)
Record VGG16StyleTransfer : Type := mkVGG16StyleTransfer {
  floatType : DType;
  n_classes : Z;
  input_res : nat * nat * nat;
  tilStage5_layers : list Layer;
  self_model : Tensor A -> list (Tensor A)
}.

(** [SSD300(21, floatType)], run once on zeros, with the weights of
    [ssd_weights_path] loaded when a path is given, then [getVGG16()]:
    the code of the repository Tracking_SSD_ReID found under
    [tracker_ssd_path]. *)
Variable SSD300_getVGG16 : string -> Z -> option string -> result (list (list Layer)).
(** [VGG16(input_shape).getUntilStage5().layers], from the same place. *)
Variable VGG16_getUntilStage5 : string -> nat * nat * nat -> result (list Layer).

(** [__init__]; the first component of the argument and of the result is
    the global Keras [floatx]. *)
Definition __init__ (floatx : string) (tracker_ssd_path : string)
    (ssd_weights_path : option string) (classes : Z) (float_type : Z)
    : result (VGG16StyleTransfer * string) :=
  '(dtype, floatx') ← select_floatType float_type floatx;
  SSD_backbone ← SSD300_getVGG16 tracker_ssd_path float_type ssd_weights_path;
  let input_shape := (300, 300, 3)%nat in
  target ← VGG16_getUntilStage5 tracker_ssd_path input_shape;
  layers ← transplant SSD_backbone target;
  model ← build_model layers;
  Ok (mkVGG16StyleTransfer dtype classes input_shape layers model, floatx').
End Construction.

Arguments Layer A : clear implicits.

(** The state of the target after [k] rounds of the transplant: the rounds
    done have copied and frozen their layer, the other layers are as they
    were. *)
Definition transplanted {A : Type} (SSD_backbone : list (list (Layer A)))
    (target : list (Layer A)) (k : nat) (layers : list (Layer A)) : Prop :=
  length layers = length target /\
  (forall i, (i < k)%nat -> (i < length target)%nat ->
     exists src, source_layer SSD_backbone i = Some src /\
       layers !! i = Some (mkLayer (weights src) false)) /\
  (forall i, (k <= i)%nat -> layers !! i = target !! i).

Arguments TransplantState A : clear implicits.
Arguments VGG16StyleTransfer A : clear implicits.

(** ** The drivers: [inferOnVideo] and [inferOnImage] *)

(** [a % b] on Python integers. *)
Definition py_mod (a b : Z) : result Z :=
  if bool_decide (b = 0) then Raise ZeroDivisionError else Ok (a `mod` b).

Section Drivers.
Context {A : Type} {FA : Float A}.
Variable model : Tensor A -> list (Tensor A).
Variable tape_gradient : (Tensor A -> result A) -> Tensor A -> Tensor A.
Variable Optimizer : Type.
Variable apply_gradients : Optimizer -> Tensor A -> Tensor A -> Optimizer * Tensor A.
Variable PILImage : Type.
Variable array_to_img : Tensor A -> PILImage.

(** The media services of PIL, NumPy and OpenCV. *)
(** [np.array], [cv2.resize(_, (300, 300), INTER_NEAREST)],
    [tf.convert_to_tensor] and [tf.expand_dims(_, 0)]. *)
Variable to_input : PILImage -> Tensor A.
(** [img.size]. *)
Variable img_size : PILImage -> Z * Z.
(** [img.resize(size, Image.ANTIALIAS)]. *)
Variable img_resize : PILImage -> Z * Z -> PILImage.
(** The three thumbnail blocks: flags, line width, content picture, style
    picture, target size, original height, picture to draw on. *)
Variable add_thumbnails :
  bool -> bool -> Z -> PILImage -> PILImage -> Z * Z -> Z -> PILImage -> result PILImage.
(** A decoded video frame and [Image.fromarray(cv2.cvtColor(frame, ...))]. *)
Variable Frame : Type.
Variable frame_to_img : Frame -> PILImage.

(** The picture files and the video files at hand. *)
Record Video : Type := mkVideo {
  video_frames : list Frame;       (* what [cap.read()] delivers, in order *)
  CAP_PROP_FRAME_COUNT : Z         (* what the container announces *)
}.

Variable pictures : gmap string PILImage.
Variable videos : gmap string Video.

(** [Image.open]. *)
Definition Image_open (path : string) : result PILImage :=
  match pictures !! path with
  | Some img => Ok img
  | None => Raise FileNotFoundError
  end.

(** [cv2.VideoCapture]: a path that cannot be opened gives a capture that
    announces no frame and delivers none. *)
Definition VideoCapture (path : string) : Video :=
  default (mkVideo [] 0) (videos !! path).

(** What the frame loop of [inferOnVideo] reads and writes, next to the
    capture and the counter [i]. *)
Record VideoState : Type := mkVideoState {
  v_resize : option (Z * Z);
  v_optimizer : Optimizer;
  imgs : list PILImage
}.

(** Lines 254-318: one frame stylised and appended. *)
Definition process_frame (style_image : Tensor A) (style_image_on_gif : PILImage)
    (epochs : Z) (add_content_img add_style_img : bool) (line_width : Z)
    (s : VideoState) (frame : Frame) : result VideoState :=
  let img := frame_to_img frame in
  let orig_height := (img_size img).1 in
  let resize := default (img_size img) (v_resize s) in
  let content_image := to_input img in
  '(opt', snapshots) ← training model tape_gradient apply_gradients array_to_img
                          style_image content_image (v_optimizer s) epochs;
  image_result ← py_last snapshots;
  let image_result := img_resize image_result resize in
  image_result ← add_thumbnails add_content_img add_style_img line_width
                    img style_image_on_gif resize orig_height image_result;
  Ok (mkVideoState (Some resize) opt' (imgs s ++ [image_result])).

(** Lines 243-253: the loop [for _ in range(number_of_frame)], with the
    rounds left, the frames the capture has not delivered yet, and the
    counter [i].  [break] returns the state, [continue] goes to the next
    round. *)
Fixpoint frame_loop (body : VideoState -> Frame -> result VideoState)
    (start_idx end_idx skip : Z)
    (rounds : nat) (cap : list Frame) (i : Z) (s : VideoState) : result VideoState :=
  match rounds with
  | O => Ok s
  | S rounds' =>
      match cap with
      | [] => Ok s                                            (* not ret: break *)
      | frame :: cap' =>
          let i := i + 1 in
          if bool_decide (i ≤ start_idx)
          then frame_loop body start_idx end_idx skip rounds' cap' i s
          else if bool_decide (0 ≤ end_idx) && bool_decide (end_idx < i)
          then Ok s
          else
            r ← py_mod i skip;
            if bool_decide (r ≠ 0)
            then frame_loop body start_idx end_idx skip rounds' cap' i s
            else
              s' ← body s frame;
              frame_loop body start_idx end_idx skip rounds' cap' i s'
      end
  end.

(** What [inferOnVideo] leaves at [out_path]. *)
Record Animation : Type := mkAnimation {
  anim_path : string;
  anim_frames : list PILImage;
  anim_fps : Z
}.

(** Lines 236-318: the frames collected by the loop. *)
Definition collect_frames (style_image_path : string) (opt : Optimizer) (epochs : Z)
    (video_path : string) (start_idx end_idx skip : Z) (resize : option (Z * Z))
    (add_content_img add_style_img : bool) (line_width : Z) : result VideoState :=
  style_image ← Image_open style_image_path;
  let style_image := to_input style_image in
  let style_image_on_gif := array_to_img (squeeze style_image) in
  let cap := VideoCapture video_path in
  let number_of_frame :=
    if bool_decide (end_idx ≠ -1) then end_idx else CAP_PROP_FRAME_COUNT cap in
  frame_loop
    (process_frame style_image style_image_on_gif epochs
       add_content_img add_style_img line_width)
    start_idx end_idx skip
    (Z.to_nat number_of_frame) (video_frames cap) 0
    (mkVideoState resize opt []).

Definition inferOnVideo (style_image_path : string) (opt : Optimizer) (epochs : Z)
    (video_path out_path : string) (start_idx end_idx skip : Z)
    (resize : option (Z * Z)) (fps : Z)
    (add_content_img add_style_img : bool) (line_width : Z) : result Animation :=
  s ← collect_frames style_image_path opt epochs video_path start_idx end_idx skip
        resize add_content_img add_style_img line_width;
  match imgs s with
  | [] => Raise IndexError                                    (* imgs[0] *)
  | first :: rest => Ok (mkAnimation out_path (first :: rest) fps)
  end.

(** Line 350 of [inferOnImage]: the content picture that is opened. *)
Definition content_image_init (image_path : string) : result PILImage :=
  Image_open "imgs/content.jpg".

(** [inferOnImage]: the path written and the picture saved there. *)
Definition inferOnImage (style_image_path : string) (opt : Optimizer) (epochs : Z)
    (image_path out_path : string) (resize : option (Z * Z))
    (add_content_img add_style_img : bool) (line_width : Z)
    : result (string * PILImage) :=
  content_init ← content_image_init image_path;
  let orig_height := (img_size content_init).1 in
  let resize := default (img_size content_init) resize in
  let content_image := to_input content_init in
  style_image ← Image_open style_image_path;
  let style_image := to_input style_image in
  let style_image_on_gif := array_to_img (squeeze style_image) in
  '(_, snapshots) ← training model tape_gradient apply_gradients array_to_img
                      style_image content_image opt epochs;
  image_result ← py_last snapshots;
  let image_result := img_resize image_result resize in
  image_result ← add_thumbnails add_content_img add_style_img line_width
                    content_init style_image_on_gif resize orig_height image_result;
  Ok (out_path, image_result).

(** The frames the specification selects, by their 0-based index [k] in the
    stream, first frame at index [from]: index in [[start_idx, upper)] and
    1-based position [k + 1] a multiple of [skip]. *)
Fixpoint selected_frames (start_idx upper skip : Z) (from : Z) (cap : list Frame)
    : list Frame :=
  match cap with
  | [] => []
  | frame :: cap' =>
      if bool_decide (start_idx ≤ from < upper ∧ (from + 1) `mod` skip = 0)
      then frame :: selected_frames start_idx upper skip (from + 1) cap'
      else selected_frames start_idx upper skip (from + 1) cap'
  end.
End Drivers.

Arguments Video Frame : clear implicits.
Arguments VideoState Optimizer PILImage : clear implicits.
Arguments Animation PILImage : clear implicits.
Arguments mkVideo {Frame}.
Arguments video_frames {Frame}.
Arguments CAP_PROP_FRAME_COUNT {Frame}.
Arguments mkVideoState {Optimizer PILImage}.
Arguments v_resize {Optimizer PILImage}.
Arguments v_optimizer {Optimizer PILImage}.
Arguments imgs {Optimizer PILImage}.
Arguments mkAnimation {PILImage}.
Arguments anim_frames {PILImage}.
Arguments frame_loop {Optimizer PILImage Frame}.
Arguments selected_frames {Frame}.
Arguments Image_open {PILImage}.
Arguments VideoCapture {Frame}.
Arguments content_image_init {PILImage}.
Arguments process_frame {A FA} model tape_gradient {Optimizer} apply_gradients {PILImage}
  array_to_img to_input img_size img_resize add_thumbnails {Frame} frame_to_img.
Arguments collect_frames {A FA} model tape_gradient {Optimizer} apply_gradients {PILImage}
  array_to_img to_input img_size img_resize add_thumbnails {Frame} frame_to_img.
Arguments inferOnVideo {A FA} model tape_gradient {Optimizer} apply_gradients {PILImage}
  array_to_img to_input img_size img_resize add_thumbnails {Frame} frame_to_img.
Arguments inferOnImage {A FA} model tape_gradient {Optimizer} apply_gradients {PILImage}
  array_to_img to_input img_size img_resize add_thumbnails.

(** ** The formulas of the specification, in exact arithmetic *)

Local Open Scope Q_scope.

(** [f 0 + f 1 + ... + f (n - 1)]. *)
Fixpoint big_sum (n : nat) (f : nat -> Q) : Q :=
  match n with
  | O => 0
  | S n' => big_sum n' f + f n'
  end.

(** Entry [(c, d)] of the Gram matrix of an activation of shape
    [(1, H, W, C)]: the products of channels [c] and [d] summed over the
    spatial positions, divided by [H * W]. *)
Definition gram_entry (t : Tensor Q) (H W C c d : nat) : Q :=
  big_sum H (fun i => big_sum W (fun j =>
    at4 t H W C 0 i j c * at4 t H W C 0 i j d))
  / inject_Z (Z.of_nat (H * W)).

(** Sum of the squared differences of two buffers of [n] elements. *)
Definition sum_sq_diff (n : nat) (a b : list Q) : Q :=
  big_sum n (fun k => (nth k a 0 - nth k b 0) * (nth k a 0 - nth k b 0)).

(** Mean squared difference of a generated and a target Gram matrix. *)
Definition mean_sq_diff (g t : Tensor Q) : Q :=
  sum_sq_diff (numel (shape g)) (data g) (data t) / inject_Z (Z.of_nat (numel (shape g))).

(** Style loss: the mean squared differences summed over the layer pairs. *)
Fixpoint style_loss (style_feature style_target : list (Tensor Q)) : Q :=
  match style_feature, style_target with
  | g :: gs, t :: ts => mean_sq_diff g t + style_loss gs ts
  | _, _ => 0
  end.

(** Content loss: half the sum of the squared differences. *)
Definition content_loss (content_feature content_target : Tensor Q) : Q :=
  (1 # 2) * sum_sq_diff (numel (shape content_feature))
              (data content_feature) (data content_target).

(** The weighted total of the specification. *)
Definition total_loss (style_feature style_target : list (Tensor Q))
    (content_feature content_target : Tensor Q) : Q :=
  1 * style_loss style_feature style_target
  + (1 # 1000000000000000000000000000000) * content_loss content_feature content_target.

(** A pixel within [[0.0, 255.0]], as a comparison of floating-point values
    decides it. *)
Definition in_pixel_range (v : fp) : bool := fle (Fin 0) v && fle v (Fin 255).


(** What the clamp makes of a pixel [u] left by the optimizer: NaN stays NaN,
    every other value ends within the range. *)
Definition clamped_pixel (u v : fp) : Prop :=
  (u = NaN -> v = NaN) /\ (u <> NaN -> in_pixel_range v = true).

(** ** Shapes through the pipeline *)

(** Shape of the Gram matrix of an activation of shape [s]. *)
Definition gram_shape (s : list nat) : list nat :=
  match s with
  | [B; _; _; C] => [B; C; C]
  | _ => []
  end.

(** A feature extractor with outputs of fixed shapes: style taps of shapes
    [sshapes], then the content tap of shape [cshape]. *)
Definition extractor_shapes {A : Type} (model : Tensor A -> list (Tensor A))
    (sshapes : list (list nat)) (cshape : list nat) : Prop :=
  forall x, exists styles content,
    model x = styles ++ [content] /\
    map shape styles = sshapes /\ shape content = cshape.

(** Two tensors that can be compared element by element. *)
Definition comparable {A : Type} (g t : Tensor A) : Prop :=
  shape g = shape t /\ well_shaped g /\ well_shaped t.

(** ** A small instance to run the definitions on *)

Module Toy.
(** An extractor with one style tap and the content tap, both the sum of
    the input as a [(1, 1, 1, 1)] activation. *)
Definition model {A : Type} {FA : Float A} (x : Tensor A) : list (Tensor A) :=
  [mkTensor [1; 1; 1; 1]%nat [fsum (data x)];
   mkTensor [1; 1; 1; 1]%nat [fsum (data x)]].

(** A tape that reports the gradient [g] for every pixel. *)
Definition tape_gradient {A : Type} (g : A) (loss : Tensor A -> result A)
    (x : Tensor A) : Tensor A :=
  mkTensor (shape x) (map (fun _ => g) (data x)).

(** Plain gradient descent; the state of the optimizer is its learning
    rate. *)
Definition sgd {A : Type} {FA : Float A} (lr : A) (grads var : Tensor A)
    : A * Tensor A :=
  (lr, mkTensor (shape var) (zip_with (fun v g => sub v (mul lr g)) (data var) (data grads))).

(** Pictures are kept as the tensors they are made from. *)
Definition array_to_img {A : Type} (t : Tensor A) : Tensor A := t.

(** An extractor with one style tap, both taps the input itself. *)
Definition taps {A : Type} (x : Tensor A) : list (Tensor A) := [x; x].

(** An activation of shape [(1, 2, 1, 2)]. *)
Definition activation : Tensor Q := mkTensor [1; 2; 1; 2]%nat [1; 2; 3; 4].

(** Gram matrices and content activations for the loss. *)
Definition gram_generated : Tensor Q := mkTensor [1; 2; 2]%nat [1; 2; 2; 4].
Definition gram_target : Tensor Q := mkTensor [1; 2; 2]%nat [0; 0; 0; 0].
Definition content_generated : Tensor Q := mkTensor [1; 1; 1; 1]%nat [3].
Definition content_target : Tensor Q := mkTensor [1; 1; 1; 1]%nat [1].

(** A 1x2 picture with one channel, as a batch of one. *)
Definition picture {A : Type} {FA : Float A} : Tensor A :=
  mkTensor [1; 1; 2; 1]%nat [of_Q 10; of_Q 300].

Definition style {A : Type} {FA : Float A} : Tensor A :=
  mkTensor [1; 1; 2; 1]%nat [of_Q 255; of_Q 0].

(** A layer adds its first parameter to every element. *)
Definition layer_call (l : Layer Z) (x : Tensor Z) : Tensor Z :=
  mkTensor (shape x)
    (map (fun v => (v + default 0 (head (flat_map data (weights l))))%Z) (data x)).

(** A backbone of 13 + 2 layers, each with one parameter that tells the
    layer, and a fresh target of 15 trainable layers. *)
Definition backbone : list (list (Layer Z)) :=
  [map (fun k => mkLayer [mkTensor [1%nat] [Z.of_nat k]] true) (seq 0 13);
   map (fun k => mkLayer [mkTensor [1%nat] [100 + Z.of_nat k]%Z] true) (seq 0 2)].
Definition target : list (Layer Z) :=
  replicate 15 (mkLayer [mkTensor [1%nat] [0%Z]] true).

(** Another picture, the files at hand and a clip of three frames. *)
Definition photo {A : Type} {FA : Float A} : Tensor A :=
  mkTensor [1; 1; 2; 1]%nat [of_Q 7; of_Q 8].
Definition pictures : gmap string (Tensor Q) :=
  <["imgs/content.jpg"%string := picture]>
    (<["photo.jpg"%string := photo]> (<["style.jpg"%string := style]> ∅)).
Definition clip : Video (Tensor Q) := mkVideo [picture; photo; picture] 3.
Definition videos : gmap string (Video (Tensor Q)) :=
  <["clip.mp4"%string := clip]> ∅.

(** Media services that leave the pictures as they are. *)
Definition to_input (img : Tensor Q) : Tensor Q := img.
Definition img_size (img : Tensor Q) : Z * Z := (2%Z, 1%Z).
Definition img_resize (img : Tensor Q) (size : Z * Z) : Tensor Q := img.
Definition add_thumbnails (add_content_img add_style_img : bool) (line_width : Z)
    (content style_on_gif : Tensor Q) (size : Z * Z) (orig_height : Z)
    (image_result : Tensor Q) : result (Tensor Q) := Ok image_result.
Definition frame_to_img (frame : Tensor Q) : Tensor Q := frame.

(** The drivers on these services, with gradient descent at rate 1/2. *)
Definition collect_frames :=
  collect_frames model (tape_gradient 1) sgd array_to_img
    to_input img_size img_resize add_thumbnails frame_to_img pictures videos.
Definition inferOnVideo :=
  inferOnVideo model (tape_gradient 1) sgd array_to_img
    to_input img_size img_resize add_thumbnails frame_to_img pictures videos.
Definition inferOnImage :=
  inferOnImage model (tape_gradient 1) sgd array_to_img
    to_input img_size img_resize add_thumbnails pictures.

(** The state on entry of the loop for [picture], with learning rate
    [lr]. *)
Definition start {A : Type} {FA : Float A} (lr : A) : TrainState A A (Tensor A) :=
  training_init array_to_img picture lr.

(** Targets of the shapes [model] produces. *)
Definition style_targets {A : Type} {FA : Float A} : list (Tensor A) :=
  [mkTensor [1; 1; 1]%nat [of_Q 1]].
Definition content_targets {A : Type} {FA : Float A} : Tensor A :=
  mkTensor [1; 1; 1; 1]%nat [of_Q 1].
End Toy.

(** ** Further definitions for the properties of the code *)

(** The same activation with its spatial positions laid out in one row:
    shape [(B, 1, H * W, C)] over the same buffer. *)
Definition flatten_spatial {A : Type} (t : Tensor A) : Tensor A :=
  match shape t with
  | [B; H; W; C] => mkTensor [B; 1; H * W; C]%nat (data t)
  | _ => t
  end.

(** The layers [ls] applied one after the other. *)
Definition run_layers {A : Type} (layer_call : Layer A -> Tensor A -> Tensor A)
    (ls : list (Layer A)) (x : Tensor A) : Tensor A :=
  foldl (fun x l => layer_call l x) x ls.

(** Every target layer has its source in the backbone, with parameters of
    the same shapes. *)
Definition fits_backbone {A : Type} (SSD_backbone : list (list (Layer A)))
    (target : list (Layer A)) : Prop :=
  forall i dst, target !! i = Some dst ->
    exists src, source_layer SSD_backbone i = Some src /\
      map shape (weights src) = map shape (weights dst).

(** The state of the transplant before round [k]: the layers from [k] on
    are those of the target, and sub-stack 0 is still selected while no round
    from 13 on has run. *)
Definition untouched_from {A : Type} (target : list (Layer A)) (k : nat)
    (s : TransplantState A) : Prop :=
  length (VGG16_tilStage5 s) = length target /\
  (k <= 13 -> ssd_seq_idx s = 0)%nat /\
  (forall i, (k <= i)%nat -> VGG16_tilStage5 s !! i = target !! i).

(** ** Finite values *)

Definition is_finite (v : fp) : Prop :=
  match v with
  | Fin _ => True
  | _ => False
  end.

(** A finite value that is zero. *)
Definition is_zero (v : fp) : Prop :=
  match v with
  | Fin q => q == 0
  | _ => False
  end.

(** [x != y] and [x > y] as the hardware compares: NaN differs from
    everything and is greater than nothing. *)
Definition fne (x y : fp) : bool :=
  match x, y with
  | Fin a, Fin b => negb (Qeq_bool a b)
  | PInf, PInf | NInf, NInf => false
  | _, _ => true
  end.

Definition fgt (x y : fp) : bool := fle y x && negb (fle x y).

(** ** Pictures: [array_to_img] of Keras *)

(** [tf.keras.preprocessing.image.array_to_img] belongs to Keras, not to
    this repository; it is written down here from the library's source
    (keras_preprocessing/image/utils.py), with the defaults [training]
    calls it with, [data_format='channels_last'] and [scale=True]:
<<
    x = np.asarray(x, dtype=dtype)
    if x.ndim != 3:
        raise ValueError(...)
    if scale:
        x = x - np.min(x)
        x_max = np.max(x)
        if x_max != 0:
            x /= x_max
        x *= 255
    if x.shape[2] == 4:
        return pil_image.fromarray(x.astype('uint8'), 'RGBA')
    elif x.shape[2] == 3:
        return pil_image.fromarray(x.astype('uint8'), 'RGB')
    elif x.shape[2] == 1:
        if np.max(x) > 255:
            return pil_image.fromarray(x[:, :, 0].astype('int32'), 'I')
        return pil_image.fromarray(x[:, :, 0].astype('uint8'), 'L')
    else:
        raise ValueError(...)
>>
*)
Module Keras.

Inductive PILMode : Type :=
  | mode_RGBA
  | mode_RGB
  | mode_L
  | mode_I.

(** A PIL picture: its mode, its size as (width, height) and its samples
    row by row.  A sample is [None] where the cast that made it is left
    undefined (a NaN, an infinity, a value out of the range of the integer
    type). *)
Record Picture : Type := mkPicture {
  pic_mode : PILMode;
  pic_size : nat * nat;
  pic_pixels : list (option Z)
}.

(** [np.min] and [np.max]: ValueError on an array without elements; a NaN
    among the elements is the result. *)
Definition np_min (l : list fp) : result fp :=
  match l with
  | [] => Raise ValueError
  | v :: rest => Ok (foldl fminimum v rest)
  end.

Definition np_max (l : list fp) : result fp :=
  match l with
  | [] => Raise ValueError
  | v :: rest => Ok (foldl fmaximum v rest)
  end.

(** The cast of a floating-point value to an integer type drops the
    fraction. *)
Definition truncate (q : Q) : Z := (Qnum q ÷ Zpos (Qden q))%Z.

Definition astype (lo hi : Z) (v : fp) : option Z :=
  match v with
  | Fin q => if bool_decide (lo <= truncate q <= hi)%Z then Some (truncate q) else None
  | _ => None
  end.

Definition astype_uint8 : fp -> option Z := astype 0 255.
Definition astype_int32 : fp -> option Z := astype (-2147483648) 2147483647.

Definition array_to_img (x : Tensor fp) : result Picture :=
  match shape x with
  | [H; W; C] =>
      lo ← np_min (data x);
      let shifted := map (fun v => fsub v lo) (data x) in
      x_max ← np_max shifted;
      let scaled := if fne x_max (Fin 0)
                    then map (fun v => fdiv v x_max) shifted
                    else shifted in
      let scaled := map (fun v => fmul v (Fin 255)) scaled in
      match C with
      | 4%nat => Ok (mkPicture mode_RGBA (W, H) (map astype_uint8 scaled))
      | 3%nat => Ok (mkPicture mode_RGB (W, H) (map astype_uint8 scaled))
      | 1%nat =>
          top ← np_max scaled;
          if fgt top (Fin 255)
          then Ok (mkPicture mode_I (W, H) (map astype_int32 scaled))
          else Ok (mkPicture mode_L (W, H) (map astype_uint8 scaled))
      | _ => Raise ValueError
      end
  | _ => Raise ValueError
  end.

End Keras.

(** ** The optimisation loop with its pictures rendered *)

(** [training] on floating-point values with [array_to_img] as Keras has
    it: a conversion that is refused ends the call with its exception. *)
Module Rendered.
Section Training.
Variable model : Tensor fp -> list (Tensor fp).
Variable tape_gradient : (Tensor fp -> result fp) -> Tensor fp -> Tensor fp.
Variable Optimizer : Type.
Variable apply_gradients : Optimizer -> Tensor fp -> Tensor fp -> Optimizer * Tensor fp.

(** One round of the [for n in range(epochs)] loop. *)
Definition training_step (style_targets : list (Tensor fp)) (content_targets : Tensor fp)
    (s : TrainState fp Optimizer Keras.Picture)
    : result (TrainState fp Optimizer Keras.Picture) :=
  loss ← recorded_loss model style_targets content_targets (generated_image s);
  let gradients :=
    tape_gradient (recorded_loss model style_targets content_targets) (generated_image s) in
  let '(optimizer', updated) :=
    apply_gradients (optimizer s) gradients (generated_image s) in
  let clipped := clip_by_value updated (of_Q 0) (of_Q 255) in
  let tmp_img := clipped in
  img ← Keras.array_to_img (squeeze tmp_img);
  Ok (mkTrainState clipped optimizer' (images s ++ [img])).

Definition training (style_image content_image : Tensor fp) (opt : Optimizer)
    (epochs : Z) : result (Optimizer * list Keras.Picture) :=
  '(style_targets, _) ← get_features model style_image;
  '(_, content_targets) ← get_features model content_image;
  first ← Keras.array_to_img (squeeze content_image);
  s ← iterM (Z.to_nat epochs) (training_step style_targets content_targets)
            (mkTrainState content_image opt [first]);
  Ok (optimizer s, images s).
End Training.
End Rendered.

Arguments Rendered.training_step model tape_gradient {Optimizer} apply_gradients.
Arguments Rendered.training model tape_gradient {Optimizer} apply_gradients.

(** The optimizer updates its variable in place: the shape and the number
    of elements stay. *)
Definition updates_in_place {A Optimizer : Type}
    (apply_gradients : Optimizer -> Tensor A -> Tensor A -> Optimizer * Tensor A) : Prop :=
  forall opt grads var,
    shape (apply_gradients opt grads var).2 = shape var /\
    length (data (apply_gradients opt grads var).2) = length (data var).

(** What [array_to_img] accepts once the batch dimension is squeezed away:
    rank 3, with 3 or 4 channels (a dimension of one channel is squeezed
    away too), and at least one element. *)
Definition renderable {A : Type} (t : Tensor A) (H W : nat) : Prop :=
  exists C, shape (squeeze t) = [H; W; C] /\
    (C = 3%nat \/ C = 4%nat) /\ data t <> [].

(** A tensor of finite values as a tensor of floating-point values. *)
Definition finite (t : Tensor Q) : Tensor fp :=
  mkTensor (shape t) (map Fin (data t)).

(** More instances to run the definitions on. *)
Module Cases.
(** An activation of shape (1, 1, 2, 2) that is zero everywhere. *)
Definition blank : Tensor fp := mkTensor [1; 1; 2; 2]%nat (replicate 4 (Fin 0)).

(** A 2x2 picture with three channels, every sample at 100, as a batch of
    one; one whose samples run from 20 to 148; and a batch of two
    pictures. *)
Definition grey : Tensor fp :=
  mkTensor [1; 2; 2; 3]%nat (replicate 12 (Fin 100)).
Definition ramp : Tensor fp :=
  mkTensor [1; 2; 2; 3]%nat
    (map Fin [20; 148; 84; 52; 36; 28; 116; 68; 24; 22; 21; 100]).
Definition pair : Tensor fp :=
  mkTensor [2; 2; 2; 3]%nat (replicate 24 (Fin 100)).

(** Gradient descent on every sample; the state of the optimizer is its
    learning rate. *)
Definition descend (lr : fp) (grads var : Tensor fp) : fp * Tensor fp :=
  (lr, mkTensor (shape var)
         (imap (fun i v => fsub v (fmul lr (nth i (data grads) (Fin 0)))) (data var))).
End Cases.
(** * Properties *)

(** ** Sums and row-major buffers *)

Lemma big_sum_ext (n : nat) (f g : nat -> Q) :
  (forall i, (i < n)%nat -> f i == g i) -> big_sum n f == big_sum n g.
Proof.
  induction n as [|n IH]; intros Hfg; simpl.
  - reflexivity.
  - rewrite IH by (intros i Hi; apply Hfg; lia).
    rewrite (Hfg n) by lia. reflexivity.
Qed.

Lemma big_sum_shift (n : nat) (f : nat -> Q) :
  big_sum (S n) f == f 0%nat + big_sum n (fun i => f (S i)).
Proof.
  induction n as [|n IH].
  - simpl. ring.
  - change (big_sum (S (S n)) f) with (big_sum (S n) f + f (S n)).
    rewrite IH. simpl. ring.
Qed.

Lemma fsum_Q_cons (x : Q) (l : list Q) : fsum (x :: l) = x + fsum l.
Proof. reflexivity. Qed.

Lemma fsum_Q_app (l1 l2 : list Q) : fsum (l1 ++ l2) == fsum l1 + fsum l2.
Proof.
  induction l1 as [|x l1 IH]; simpl app.
  - change (fsum (@nil Q)) with 0. ring.
  - rewrite !fsum_Q_cons, IH. ring.
Qed.

(** A sum over a list is the sum of its elements by index. *)
Lemma fsum_Q_big_sum (l : list Q) :
  fsum l == big_sum (length l) (fun k => nth k l 0).
Proof.
  induction l as [|x l IH].
  - reflexivity.
  - change (length (x :: l)) with (S (length l)).
    rewrite big_sum_shift, fsum_Q_cons, IH. reflexivity.
Qed.

Lemma fsum_Q_bind_seq (g : nat -> list Q) (F : nat -> Q) (n s : nat) :
  (forall i, fsum (g i) == F i) ->
  fsum (seq s n ≫= g) == big_sum n (fun i => F (s + i)%nat).
Proof.
  intros Hg. revert s. induction n as [|n IH]; intros s.
  - reflexivity.
  - rewrite big_sum_shift. simpl seq. rewrite bind_cons, fsum_Q_app, Hg, IH.
    rewrite Nat.add_0_r. apply Qplus_comp; [reflexivity|].
    apply big_sum_ext. intros i _. replace (S s + i)%nat with (s + S i)%nat by lia.
    reflexivity.
Qed.

Lemma bind_singleton_map {X Y : Type} (F : X -> Y) (l : list X) :
  l ≫= (fun x => [F x]) = map F l.
Proof. induction l as [|x l IH]; [reflexivity|]. rewrite bind_cons, IH. reflexivity. Qed.

Lemma length_bind_seq {X : Type} (g : nat -> list X) (D n s : nat) :
  (forall c, length (g c) = D) -> length (seq s n ≫= g) = (n * D)%nat.
Proof.
  intros Hg. revert s. induction n as [|n IH]; intros s; [reflexivity|].
  simpl seq. rewrite bind_cons, length_app, Hg, IH. reflexivity.
Qed.

(** Row-major addressing: block [c], offset [d]. *)
Lemma nth_bind_seq {X : Type} (g : nat -> list X) (D : nat) (z : X) :
  (forall c, length (g c) = D) ->
  forall n s c d, (c < n)%nat -> (d < D)%nat ->
    nth (c * D + d) (seq s n ≫= g) z = nth d (g (s + c)%nat) z.
Proof.
  intros Hg. induction n as [|n IH]; intros s c d Hc Hd; [lia|].
  simpl seq. rewrite bind_cons. destruct c as [|c].
  - rewrite Nat.add_0_r. simpl. rewrite app_nth1 by (rewrite Hg; lia). reflexivity.
  - rewrite app_nth2 by (rewrite Hg; simpl; lia). rewrite Hg.
    replace (S c * D + d - D)%nat with (c * D + d)%nat by (simpl; lia).
    rewrite IH by lia. replace (S s + c)%nat with (s + S c)%nat by lia. reflexivity.
Qed.

Lemma nth_map_seq {X : Type} (F : nat -> X) (n d : nat) (z : X) :
  (d < n)%nat -> nth d (map F (seq 0 n)) z = F d.
Proof.
  intros Hd. rewrite nth_lookup, list_lookup_fmap, lookup_seq_lt by lia. reflexivity.
Qed.

Lemma nth_map_lt {X Y : Type} (f : X -> Y) (l : list X) (k : nat) (z : X) (z' : Y) :
  (k < length l)%nat -> nth k (map f l) z' = f (nth k l z).
Proof.
  revert k. induction l as [|x l IH]; intros k Hk; simpl in *; [lia|].
  destruct k as [|k]; [reflexivity|]. apply IH. lia.
Qed.

(** ** [gram_calc] *)

Lemma gram_data_entry (x : Tensor Q) (H W C c d : nat) :
  (c < C)%nat -> (d < C)%nat ->
  nth (c * C + d)
      (c' ← seq 0 C; d' ← seq 0 C;
       [fsum (i ← seq 0 H; j ← seq 0 W;
              [mul (at4 x H W C 0 i j c') (at4 x H W C 0 i j d')])]) 0
  == big_sum H (fun i => big_sum W (fun j =>
       at4 x H W C 0 i j c * at4 x H W C 0 i j d)).
Proof.
  intros Hc Hd.
  rewrite (nth_bind_seq _ C) by
    (try lia; intros c'; rewrite bind_singleton_map, length_map, length_seq; reflexivity).
  rewrite bind_singleton_map, nth_map_seq by lia.
  rewrite (fsum_Q_bind_seq _ (fun i => big_sum W (fun j =>
             at4 x H W C 0 i j c * at4 x H W C 0 i j d))).
  - apply big_sum_ext. intros i _. reflexivity.
  - intros i. rewrite (fsum_Q_bind_seq _ (fun j =>
             at4 x H W C 0 i j c * at4 x H W C 0 i j d)).
    + apply big_sum_ext. intros j _. reflexivity.
    + intros j. change (fsum [?a]) with (a + 0). simpl. ring.
Qed.

(** On an activation of shape [(1, H, W, C)], [gram_calc] returns a
    well-shaped [(1, C, C)] tensor with the entries of the specification. *)
Lemma gram_calc_entries (t : Tensor Q) (H W C : nat) :
  shape t = [1; H; W; C]%nat ->
  exists g, gram_calc t = Ok g /\ shape g = [1; C; C]%nat /\ well_shaped g /\
    forall c d, (c < C)%nat -> (d < C)%nat ->
      nth (c * C + d) (data g) 0 == gram_entry t H W C c d.
Proof.
  intros Hs. unfold gram_calc, einsum_bijc_bijd_bcd. rewrite Hs.
  rewrite bool_decide_eq_true_2 by auto.
  eexists. split; [reflexivity|]. split; [reflexivity|]. split.
  - unfold well_shaped. simpl. rewrite length_map, app_nil_r.
    rewrite (length_bind_seq _ C) by
      (intros c'; rewrite bind_singleton_map, length_map, length_seq; reflexivity).
    lia.
  - intros c d Hc Hd. simpl data. rewrite app_nil_r.
    set (l := seq 0 C ≫= _).
    assert (Hl : length l = (C * C)%nat).
    { apply length_bind_seq. intros c'.
      rewrite bind_singleton_map, length_map, length_seq. reflexivity. }
    rewrite (nth_map_lt _ l _ 0) by (rewrite Hl; nia).
    unfold l. simpl div. unfold gram_entry.
    rewrite gram_data_entry by assumption. reflexivity.
Qed.

Lemma gram_entry_sym (t : Tensor Q) (H W C c d : nat) :
  gram_entry t H W C c d == gram_entry t H W C d c.
Proof.
  unfold gram_entry. apply Qmult_comp; [|reflexivity].
  apply big_sum_ext. intros i _. apply big_sum_ext. intros j _. apply Qmult_comm.
Qed.

(** ** The error monad over lists *)

Lemma bind_Ok {X Y : Type} (f : X -> result Y) (a : X) : (Ok a ≫= f) = f a.
Proof. reflexivity. Qed.

Lemma mapM_cons_Ok {X Y : Type} (f : X -> result Y) (x : X) (l : list X)
    (y : Y) (ys : list Y) :
  f x = Ok y -> mapM f l = Ok ys -> mapM f (x :: l) = Ok (y :: ys).
Proof. intros Hx Hl. simpl. rewrite Hx, bind_Ok, Hl. reflexivity. Qed.

Lemma mapM_Ok_Forall2 {X Y : Type} (f : X -> result Y) (l : list X) :
  Forall (fun x => exists y, f x = Ok y) l ->
  exists ys, mapM f l = Ok ys /\ Forall2 (fun x y => f x = Ok y) l ys.
Proof.
  induction 1 as [|x l [y Hy] _ [ys [Hys HF]]].
  - exists []. split; [reflexivity|constructor].
  - exists (y :: ys). split.
    + apply mapM_cons_Ok; assumption.
    + constructor; assumption.
Qed.

Lemma py_last_snoc {X : Type} (l : list X) (x : X) : py_last (l ++ [x]) = Ok x.
Proof. unfold py_last. rewrite last_snoc. reflexivity. Qed.

(** [get_features] on a model whose outputs are [styles] followed by
    [content]: the Gram matrices of the former, the latter as it is. *)
Lemma get_features_Ok {A : Type} {FA : Float A} (model : Tensor A -> list (Tensor A))
    (x : Tensor A) (styles : list (Tensor A)) (content : Tensor A) :
  model (tdiv_scalar x (of_Q 255)) = styles ++ [content] ->
  Forall (fun s => exists g, gram_calc s = Ok g) styles ->
  exists grams, get_features model x = Ok (grams, content) /\
    Forall2 (fun s g => gram_calc s = Ok g) styles grams.
Proof.
  intros Hm Hs. destruct (mapM_Ok_Forall2 gram_calc styles Hs) as [grams [Hg HF]].
  exists grams. split; [|assumption].
  unfold get_features. rewrite Hm, removelast_last, Hg. simpl.
  rewrite py_last_snoc. reflexivity.
Qed.

(** C2.  On every activation of shape [(1, H, W, C)] among the style taps,
    [get_features] returns the [(1, C, C)] matrix whose entry [(c, d)] is the
    sum over the spatial positions of the products of channels [c] and [d],
    divided by [H * W]; the content tap is returned as the model produced
    it. *)
Theorem get_features_gram (model : Tensor Q -> list (Tensor Q)) (x : Tensor Q)
    (styles : list (Tensor Q)) (content : Tensor Q) :
  model (tdiv_scalar x 255) = styles ++ [content] ->
  Forall (fun s => exists H W C, shape s = [1; H; W; C]%nat) styles ->
  exists grams, get_features model x = Ok (grams, content) /\
    Forall2 (fun s g => forall H W C, shape s = [1; H; W; C]%nat ->
               gram_calc s = Ok g /\ shape g = [1; C; C]%nat /\ well_shaped g /\
               forall c d, (c < C)%nat -> (d < C)%nat ->
                 nth (c * C + d) (data g) 0 == gram_entry s H W C c d)
            styles grams.
Proof.
  intros Hm Hs.
  destruct (get_features_Ok model x styles content Hm) as [grams [Hf HF]].
  - eapply Forall_impl; [exact Hs|]. intros s (H & W & C & Hshape).
    destruct (gram_calc_entries s H W C Hshape) as [g [Hg _]]. eauto.
  - exists grams. split; [assumption|].
    eapply Forall2_impl; [exact HF|]. intros s g Hg H W C Hshape.
    destruct (gram_calc_entries s H W C Hshape) as [g' (Hg' & Hsh & Hw & He)].
    assert (g' = g) by congruence. subst g'. auto.
Qed.

Lemma get_features_gram_witness :
  Toy.taps (tdiv_scalar Toy.activation 255)
    = [tdiv_scalar Toy.activation 255] ++ [tdiv_scalar Toy.activation 255] /\
  Forall (fun s => exists H W C, shape s = [1; H; W; C]%nat)
    [tdiv_scalar Toy.activation 255] /\
  exists grams,
    get_features Toy.taps Toy.activation = Ok (grams, tdiv_scalar Toy.activation 255) /\
    Forall2 (fun s g => forall H W C, shape s = [1; H; W; C]%nat ->
               gram_calc s = Ok g /\ shape g = [1; C; C]%nat /\ well_shaped g /\
               forall c d, (c < C)%nat -> (d < C)%nat ->
                 nth (c * C + d) (data g) 0 == gram_entry s H W C c d)
            [tdiv_scalar Toy.activation 255] grams.
Proof.
  assert (Hs : Forall (fun s : Tensor Q => exists H W C, shape s = [1; H; W; C]%nat)
                 [tdiv_scalar Toy.activation 255]).
  { constructor; [|constructor]. exists 2%nat, 1%nat, 2%nat. reflexivity. }
  split; [reflexivity|]. split; [exact Hs|].
  exact (get_features_gram Toy.taps Toy.activation [tdiv_scalar Toy.activation 255]
           (tdiv_scalar Toy.activation 255) eq_refl Hs).
Defined.

Example gram_calc_activation :
  exists g, gram_calc Toy.activation = Ok g /\
    shape g = [1; 2; 2]%nat /\ map Qred (data g) = [5; 7; 7; 10].
Proof. eexists. split; [reflexivity|]. split; vm_compute; reflexivity. Qed.

(** C8.  The matrix [gram_calc] returns for an activation of shape
    [(1, H, W, C)] is symmetric: entry [(c, d)] equals entry [(d, c)]. *)
Theorem gram_calc_symmetric (t : Tensor Q) (H W C : nat) :
  shape t = [1; H; W; C]%nat ->
  exists g, gram_calc t = Ok g /\ shape g = [1; C; C]%nat /\
    forall c d, (c < C)%nat -> (d < C)%nat ->
      nth (c * C + d) (data g) 0 == nth (d * C + c) (data g) 0.
Proof.
  intros Hs. destruct (gram_calc_entries t H W C Hs) as [g (Hg & Hsh & _ & He)].
  exists g. split; [assumption|]. split; [assumption|].
  intros c d Hc Hd. rewrite (He c d), (He d c) by assumption. apply gram_entry_sym.
Qed.

Lemma gram_calc_symmetric_witness :
  shape Toy.activation = [1; 2; 1; 2]%nat /\
  exists g, gram_calc Toy.activation = Ok g /\ shape g = [1; 2; 2]%nat /\
    forall c d, (c < 2)%nat -> (d < 2)%nat ->
      nth (c * 2 + d) (data g) 0 == nth (d * 2 + c) (data g) 0.
Proof.
  split; [reflexivity|].
  exact (gram_calc_symmetric Toy.activation 2 1 2 eq_refl).
Defined.

(** ** [get_loss] *)

Lemma nth_zip_with {X Y Z : Type} (f : X -> Y -> Z) (a : list X) (b : list Y)
    (k : nat) (za : X) (zb : Y) (z : Z) :
  (k < length a)%nat -> (k < length b)%nat ->
  nth k (zip_with f a b) z = f (nth k a za) (nth k b zb).
Proof.
  revert b k. induction a as [|x a IH]; intros [|y b] k Ha Hb; simpl in *; try lia.
  destruct k as [|k]; [reflexivity|]. apply IH; lia.
Qed.

Lemma tsub_Ok {A : Type} {FA : Float A} (a b : Tensor A) :
  shape a = shape b ->
  tsub a b = Ok (mkTensor (shape a) (zip_with sub (data a) (data b))).
Proof. intros Hs. unfold tsub, shape_eqb. rewrite bool_decide_eq_true_2 by assumption. reflexivity. Qed.

Lemma tsub_Raise {A : Type} {FA : Float A} (a b : Tensor A) :
  shape a <> shape b -> tsub a b = Raise InvalidArgumentError.
Proof. intros Hs. unfold tsub, shape_eqb. rewrite bool_decide_eq_false_2 by assumption. reflexivity. Qed.

Lemma sq_diff_sum (a b : list Q) (n : nat) :
  length a = n -> length b = n ->
  fsum (map (fun v => mul v v) (zip_with sub a b)) == sum_sq_diff n a b.
Proof.
  intros Ha Hb. rewrite fsum_Q_big_sum.
  rewrite length_map, length_zip_with, Ha, Hb, Nat.min_id.
  apply big_sum_ext. intros k Hk.
  rewrite (nth_map_lt _ _ _ 0) by (rewrite length_zip_with; lia).
  rewrite (nth_zip_with _ _ _ _ 0 0) by lia. reflexivity.
Qed.

Lemma reduce_mean_square_diff (g t : Tensor Q) :
  comparable g t ->
  exists d, tsub g t = Ok d /\ reduce_mean (square d) == mean_sq_diff g t.
Proof.
  intros (Hs & Hg & Ht). eexists. split; [apply tsub_Ok, Hs|].
  unfold reduce_mean, mean_sq_diff. simpl.
  rewrite (sq_diff_sum _ _ (numel (shape g))); [reflexivity|exact Hg|].
  rewrite Hs. exact Ht.
Qed.

Lemma reduce_sum_square_diff (g t : Tensor Q) :
  comparable g t ->
  exists d, tsub g t = Ok d /\
    reduce_sum (square d) == sum_sq_diff (numel (shape g)) (data g) (data t).
Proof.
  intros (Hs & Hg & Ht). eexists. split; [apply tsub_Ok, Hs|].
  unfold reduce_sum. simpl.
  rewrite (sq_diff_sum _ _ (numel (shape g))); [reflexivity|exact Hg|].
  rewrite Hs. exact Ht.
Qed.

Lemma foldl_Qplus (x : Q) (l : list Q) : foldl Qplus x l == x + fsum l.
Proof.
  revert x. induction l as [|y l IH]; intros x; simpl foldl.
  - change (fsum (@nil Q)) with 0. ring.
  - rewrite IH, fsum_Q_cons. ring.
Qed.

(** The per-layer terms of the style loss. *)
Lemma style_terms_Ok (style_feature style_target : list (Tensor Q)) :
  Forall2 comparable style_feature style_target ->
  exists terms,
    mapM (fun '(features, targets) =>
            d ← tsub features targets; Ok (reduce_mean (square d)))
         (zip style_feature style_target) = Ok terms /\
    length terms = length style_feature /\
    fsum terms == style_loss style_feature style_target.
Proof.
  induction 1 as [|g t gs ts Hgt _ (terms & Hm & Hl & Hsum)].
  - exists []. repeat split.
  - destruct (reduce_mean_square_diff g t Hgt) as (d & Hd & Hmean).
    exists (reduce_mean (square d) :: terms). split; [|split].
    + change (zip (g :: gs) (t :: ts)) with ((g, t) :: zip gs ts).
      apply mapM_cons_Ok; [|exact Hm]. rewrite Hd. reflexivity.
    + simpl. rewrite Hl. reflexivity.
    + rewrite fsum_Q_cons, Hmean, Hsum. reflexivity.
Qed.

(** C1, as the code has it.  For every pair of same-length, non-empty
    sequences of style Gram matrices and every pair of content tensors (each
    pair of one shape), [get_loss] returns 1.0 times the style loss plus
    1e-30 times the content loss: the style loss is the sum over the layer
    pairs of the mean squared difference, the content loss is 0.5 times the
    sum of the squared differences. *)
Theorem get_loss_total (style_target style_feature : list (Tensor Q))
    (content_target content_feature : Tensor Q) :
  Forall2 comparable style_feature style_target ->
  style_feature <> [] ->
  comparable content_feature content_target ->
  exists v, get_loss style_target style_feature content_target content_feature = Ok v /\
    v == total_loss style_feature style_target content_feature content_target.
Proof.
  intros Hst Hne Hct.
  destruct (style_terms_Ok _ _ Hst) as (terms & Hm & Hl & Hsum).
  destruct (reduce_sum_square_diff _ _ Hct) as (d & Hd & Hcontent).
  destruct terms as [|x rest].
  { destruct style_feature; [congruence|discriminate]. }
  eexists. split.
  - unfold get_loss. rewrite Hm. simpl. rewrite Hd. reflexivity.
  - unfold total_loss, content_loss. simpl.
    rewrite foldl_Qplus, Hcontent, <- Hsum, fsum_Q_cons. reflexivity.
Qed.

Lemma get_loss_total_witness :
  Forall2 comparable [Toy.gram_generated] [Toy.gram_target] /\
  [Toy.gram_generated] <> [] /\
  comparable Toy.content_generated Toy.content_target /\
  exists v, get_loss [Toy.gram_target] [Toy.gram_generated]
              Toy.content_target Toy.content_generated = Ok v /\
    v == total_loss [Toy.gram_generated] [Toy.gram_target]
           Toy.content_generated Toy.content_target.
Proof.
  assert (H1 : Forall2 comparable [Toy.gram_generated] [Toy.gram_target]).
  { constructor; [|constructor]. repeat split. }
  assert (H2 : [Toy.gram_generated] <> []) by discriminate.
  assert (H3 : comparable Toy.content_generated Toy.content_target) by (repeat split).
  split; [exact H1|]. split; [exact H2|]. split; [exact H3|].
  exact (get_loss_total [Toy.gram_target] [Toy.gram_generated]
           Toy.content_target Toy.content_generated H1 H2 H3).
Defined.

(** The loss of the small instance: 25/4 for the style, 2 for the content. *)
Example get_loss_value :
  exists v, get_loss [Toy.gram_target] [Toy.gram_generated]
              Toy.content_target Toy.content_generated = Ok v /\
    v == (25 # 4) + (1 # 1000000000000000000000000000000) * 2.
Proof. eexists. split; [reflexivity|]. vm_compute. reflexivity. Qed.

(** C1, as stated, fails on the empty sequences: [tf.add_n] refuses an empty
    list, so [get_loss] raises ValueError instead of returning the weighted
    sum (which would be 1e-30 times the content loss). *)
Lemma get_loss_no_style_layer :
  length (@nil (Tensor Q)) = length (@nil (Tensor Q)) /\
  get_loss [] [] Toy.content_target Toy.content_generated = Raise ValueError /\
  ~ exists v, get_loss [] [] Toy.content_target Toy.content_generated = Ok v /\
      v == total_loss [] [] Toy.content_generated Toy.content_target.
Proof.
  split; [reflexivity|]. split; [reflexivity|].
  intros (v & Hv & _). discriminate Hv.
Qed.

(** ** The forward pass succeeds on an extractor of fixed shapes *)

Lemma gram_calc_rank4 {A : Type} {FA : Float A} (t : Tensor A) :
  length (shape t) = 4%nat ->
  exists g, gram_calc t = Ok g /\ shape g = gram_shape (shape t).
Proof.
  intros Hr. unfold gram_calc, einsum_bijc_bijd_bcd.
  destruct (shape t) as [|B [|H [|W [|C [|]]]]]; simpl in Hr; try lia.
  rewrite bool_decide_eq_true_2 by auto.
  eexists. split; reflexivity.
Qed.

Lemma gram_calc_shapes {A : Type} {FA : Float A} (styles grams : list (Tensor A)) :
  Forall2 (fun s g => gram_calc s = Ok g) styles grams ->
  Forall (fun s => length (shape s) = 4%nat) styles ->
  map shape grams = map gram_shape (map shape styles).
Proof.
  induction 1 as [|s g styles grams Hsg _ IH]; intros Hr; [reflexivity|].
  inversion Hr as [|? ? Hs Hr']; subst.
  destruct (gram_calc_rank4 s Hs) as (g' & Hg' & Hsh).
  assert (g' = g) by congruence. subst g'.
  simpl. rewrite Hsh, IH by assumption. reflexivity.
Qed.

Lemma get_features_shapes {A : Type} {FA : Float A} (model : Tensor A -> list (Tensor A))
    (sshapes : list (list nat)) (cshape : list nat) :
  extractor_shapes model sshapes cshape ->
  Forall (fun s => length s = 4%nat) sshapes ->
  forall x, exists grams content,
    get_features model x = Ok (grams, content) /\
    map shape grams = map gram_shape sshapes /\ shape content = cshape.
Proof.
  intros Hm Hr x.
  destruct (Hm (tdiv_scalar x (of_Q 255))) as (styles & content & Hout & Hss & Hcs).
  subst sshapes. rewrite Forall_fmap in Hr.
  destruct (get_features_Ok model x styles content Hout) as (grams & Hf & HF).
  { eapply Forall_impl; [exact Hr|]. intros s Hs.
    destruct (gram_calc_rank4 s Hs) as (g & Hg & _). eauto. }
  exists grams, content. split; [assumption|]. split; [|assumption].
  apply gram_calc_shapes; assumption.
Qed.

Lemma get_loss_Ok {A : Type} {FA : Float A} (style_target style_feature : list (Tensor A))
    (content_target content_feature : Tensor A) :
  map shape style_feature = map shape style_target ->
  style_feature <> [] ->
  shape content_feature = shape content_target ->
  exists v, get_loss style_target style_feature content_target content_feature = Ok v.
Proof.
  intros Hs Hne Hc.
  assert (Hterms : exists terms,
    mapM (fun '(features, targets) =>
            d ← tsub features targets; Ok (reduce_mean (square d)))
         (zip style_feature style_target) = Ok terms /\
    length terms = length style_feature).
  { clear Hne. revert style_target Hs.
    induction style_feature as [|g gs IH]; intros [|t ts] Hs; try discriminate.
    - exists []. split; reflexivity.
    - injection Hs as Hgt Hs. destruct (IH ts Hs) as (terms & Hm & Hl).
      eexists (_ :: terms). split.
      + change (zip (g :: gs) (t :: ts)) with ((g, t) :: zip gs ts).
        apply mapM_cons_Ok; [|exact Hm]. rewrite (tsub_Ok g t Hgt). reflexivity.
      + simpl. rewrite Hl. reflexivity. }
  destruct Hterms as (terms & Hm & Hl).
  destruct terms as [|x rest].
  { destruct style_feature; [congruence|discriminate]. }
  eexists. unfold get_loss. rewrite Hm. simpl. rewrite (tsub_Ok _ _ Hc). reflexivity.
Qed.

Section TrainingProperties.
Context {A : Type} {FA : Float A}.
Variable model : Tensor A -> list (Tensor A).
Variable tape_gradient : (Tensor A -> result A) -> Tensor A -> Tensor A.
Variable Optimizer : Type.
Variable apply_gradients : Optimizer -> Tensor A -> Tensor A -> Optimizer * Tensor A.
Variable PILImage : Type.
Variable array_to_img : Tensor A -> PILImage.

Variable sshapes : list (list nat).
Variable cshape : list nat.
Hypothesis model_shapes : extractor_shapes model sshapes cshape.
Hypothesis style_taps : sshapes <> [].
Hypothesis style_rank : Forall (fun s => length s = 4%nat) sshapes.

Lemma recorded_loss_Ok (style_targets : list (Tensor A)) (content_targets x : Tensor A) :
  map shape style_targets = map gram_shape sshapes ->
  shape content_targets = cshape ->
  exists v, recorded_loss model style_targets content_targets x = Ok v.
Proof using model_shapes style_taps style_rank.
  intros Hst Hct.
  destruct (get_features_shapes model sshapes cshape model_shapes style_rank x)
    as (grams & content & Hf & Hg & Hc).
  unfold recorded_loss. rewrite Hf. simpl.
  apply get_loss_Ok; [congruence| |congruence].
  intros ->. destruct sshapes; [congruence|discriminate].
Qed.

End TrainingProperties.

Lemma toy_model_shapes {A : Type} {FA : Float A} :
  extractor_shapes (Toy.model (A := A)) [[1; 1; 1; 1]%nat] [1; 1; 1; 1]%nat.
Proof.
  intros x. eexists [_], _. split; [reflexivity|]. split; reflexivity.
Qed.

(** Two epochs of gradient descent on the small instance: three pictures,
    the input first, and the second pixel cut at 255. *)
Example training_two_epochs :
  exists opt' snapshots,
    training Toy.model (Toy.tape_gradient 1) Toy.sgd Toy.array_to_img
      Toy.style Toy.picture (1 # 2) 2 = Ok (opt', snapshots) /\
    map (fun t => map Qred (data t)) snapshots
      = [[10; 300]; [19 # 2; 255]; [9; 509 # 2]].
Proof. eexists _, _. split; [reflexivity|]. vm_compute. reflexivity. Qed.

(** ** The clamp *)

Lemma Qle_bool_false_flip (a b : Q) : Qle_bool a b = false -> Qle_bool b a = true.
Proof.
  intros Hab. apply Qle_bool_iff. apply Qlt_le_weak, Qnot_le_lt.
  intros Hle. apply Qle_bool_iff in Hle. congruence.
Qed.

(** [tf.clip_by_value(_, 0.0, 255.0)] on one pixel. *)
Lemma clip_pixel (u : fp) :
  clamped_pixel u (maximum (minimum u (of_Q 255)) (of_Q 0)).
Proof.
  split.
  - intros ->. reflexivity.
  - intros Hu. destruct u as [q| | |]; try reflexivity; [|congruence].
    simpl. unfold in_pixel_range.
    destruct (Qle_bool q 255) eqn:Hhi; simpl.
    + destruct (Qle_bool q 0) eqn:Hlo; simpl.
      * reflexivity.
      * rewrite (Qle_bool_false_flip _ _ Hlo), Hhi. reflexivity.
    + reflexivity.
Qed.

Lemma clip_by_value_pixels (t : Tensor fp) :
  Forall2 clamped_pixel (data t) (data (clip_by_value t (of_Q 0) (of_Q 255))).
Proof.
  simpl. induction (data t) as [|u l IH]; constructor; [apply clip_pixel|exact IH].
Qed.

(** One round of the loop: the image it leaves is the clamp of what the
    optimizer step produced, and the appended picture is made from it. *)
Lemma training_step_inv {Optimizer PILImage : Type}
    (model : Tensor fp -> list (Tensor fp))
    (tape_gradient : (Tensor fp -> result fp) -> Tensor fp -> Tensor fp)
    (apply_gradients : Optimizer -> Tensor fp -> Tensor fp -> Optimizer * Tensor fp)
    (array_to_img : Tensor fp -> PILImage)
    (style_targets : list (Tensor fp)) (content_targets : Tensor fp)
    (s s' : TrainState fp Optimizer PILImage) :
  training_step model tape_gradient apply_gradients array_to_img
    style_targets content_targets s = Ok s' ->
  Forall2 clamped_pixel
    (data (apply_gradients (optimizer s)
             (tape_gradient (recorded_loss model style_targets content_targets)
                (generated_image s))
             (generated_image s)).2)
    (data (generated_image s')) /\
  images s' = images s ++ [array_to_img (squeeze (generated_image s'))].
Proof.
  unfold training_step. intros Hstep.
  destruct (recorded_loss model style_targets content_targets (generated_image s))
    as [loss|e]; [|discriminate].
  rewrite bind_Ok in Hstep.
  destruct (apply_gradients _ _ _) as [opt' updated].
  injection Hstep as <-. split; [|reflexivity].
  apply clip_by_value_pixels.
Qed.

(** After one round or more, every pixel of the generated image is NaN or
    within the range. *)
Lemma training_run_clamped {Optimizer PILImage : Type}
    (model : Tensor fp -> list (Tensor fp))
    (tape_gradient : (Tensor fp -> result fp) -> Tensor fp -> Tensor fp)
    (apply_gradients : Optimizer -> Tensor fp -> Tensor fp -> Optimizer * Tensor fp)
    (array_to_img : Tensor fp -> PILImage)
    (style_targets : list (Tensor fp)) (content_targets : Tensor fp)
    (n : nat) (s s' : TrainState fp Optimizer PILImage) :
  iterM (S n) (training_step model tape_gradient apply_gradients array_to_img
                 style_targets content_targets) s = Ok s' ->
  Forall (fun v => v = NaN \/ in_pixel_range v = true) (data (generated_image s')).
Proof.
  revert s. induction n as [|n IH]; intros s Hrun; simpl in Hrun.
  - destruct (training_step _ _ _ _ _ _ s) as [s1|e] eqn:Hstep; [|discriminate].
    rewrite bind_Ok in Hrun. injection Hrun as <-.
    destruct (training_step_inv _ _ _ _ _ _ _ _ Hstep) as [Hclamp _].
    revert Hclamp. generalize (data (generated_image s1)).
    generalize (data (apply_gradients (optimizer s)
             (tape_gradient (recorded_loss model style_targets content_targets)
                (generated_image s))
             (generated_image s)).2).
    induction 1 as [|u v us vs [Hnan Hin] _ IHF]; constructor; [|exact IHF].
    destruct u as [q| | |]; [right; apply Hin; discriminate..|left; apply Hnan; reflexivity].
  - destruct (training_step _ _ _ _ _ _ s) as [s1|e]; [|discriminate].
    rewrite bind_Ok in Hrun. apply (IH s1). exact Hrun.
Qed.

(** C5, as the code has it.  In every round of the loop the image left by
    the optimizer step is clamped: a pixel that is not NaN ends within
    [[0.0, 255.0]] (the infinities included), a NaN pixel stays NaN; the
    picture appended in that round is made from the clamped image. *)
Theorem training_step_clamps (model : Tensor fp -> list (Tensor fp))
    (tape_gradient : (Tensor fp -> result fp) -> Tensor fp -> Tensor fp)
    (Optimizer : Type)
    (apply_gradients : Optimizer -> Tensor fp -> Tensor fp -> Optimizer * Tensor fp)
    (PILImage : Type) (array_to_img : Tensor fp -> PILImage)
    (style_targets : list (Tensor fp)) (content_targets : Tensor fp)
    (s s' : TrainState fp Optimizer PILImage) :
  training_step model tape_gradient apply_gradients array_to_img
    style_targets content_targets s = Ok s' ->
  Forall2 clamped_pixel
    (data (apply_gradients (optimizer s)
             (tape_gradient (recorded_loss model style_targets content_targets)
                (generated_image s))
             (generated_image s)).2)
    (data (generated_image s')) /\
  images s' = images s ++ [array_to_img (squeeze (generated_image s'))].
Proof. apply training_step_inv. Qed.

Lemma training_step_clamps_witness :
  exists s',
    training_step Toy.model (Toy.tape_gradient (Fin 1)) Toy.sgd Toy.array_to_img
      Toy.style_targets Toy.content_targets (Toy.start (Fin (1 # 2))) = Ok s' /\
    Forall2 clamped_pixel
      (data (Toy.sgd (optimizer (Toy.start (Fin (1 # 2))))
               (Toy.tape_gradient (Fin 1)
                  (recorded_loss Toy.model Toy.style_targets Toy.content_targets)
                  (generated_image (Toy.start (Fin (1 # 2)))))
               (generated_image (Toy.start (Fin (1 # 2))))).2)
      (data (generated_image s')) /\
    images s' = images (Toy.start (Fin (1 # 2)))
                ++ [Toy.array_to_img (squeeze (generated_image s'))].
Proof.
  eexists. split; [reflexivity|].
  exact (training_step_clamps Toy.model (Toy.tape_gradient (Fin 1)) fp Toy.sgd
           (Tensor fp) Toy.array_to_img Toy.style_targets Toy.content_targets
           (Toy.start (Fin (1 # 2))) _ eq_refl).
Defined.

(** An infinite pixel is brought back to the bound. *)
Example clip_infinity :
  data (clip_by_value (mkTensor [3%nat] [PInf; NInf; Fin (-3)]) (of_Q 0) (of_Q 255))
  = [Fin 255; Fin 0; Fin 0].
Proof. reflexivity. Qed.

(** C5, as stated, fails when the optimizer step leaves NaN: with a NaN
    gradient, gradient descent makes every pixel NaN, and the clamp returns
    NaN, which is not within [[0.0, 255.0]]. *)
Lemma training_step_keeps_nan :
  exists s',
    training_step Toy.model (Toy.tape_gradient NaN) Toy.sgd Toy.array_to_img
      Toy.style_targets Toy.content_targets (Toy.start (Fin 1)) = Ok s' /\
    data (generated_image s') = [NaN; NaN] /\
    ~ Forall (fun v => in_pixel_range v = true) (data (generated_image s')).
Proof.
  eexists. split; [reflexivity|]. split; [reflexivity|].
  intros HF. inversion HF as [|? ? Hv _]. discriminate Hv.
Qed.

(** ** The weight transplant *)

Lemma foldM_app {S X : Type} (f : S -> X -> result S) (s : S) (l1 l2 : list X) :
  foldM f s (l1 ++ l2) = (s1 ← foldM f s l1; foldM f s1 l2).
Proof.
  revert s. induction l1 as [|x l1 IH]; intros s; simpl; [reflexivity|].
  destruct (f s x) as [s'|e]; simpl; [apply IH|reflexivity].
Qed.

Lemma get_layer_Ok {X : Type} (layers : list X) (index : nat) (l : X) :
  layers !! index = Some l -> get_layer layers index = Ok l.
Proof. intros Hl. unfold get_layer. rewrite Hl. reflexivity. Qed.

Section TransplantProperties.
Context {A : Type}.
Variable SSD_backbone : list (list (Layer A)).
Variable target : list (Layer A).

(** Every target layer has its source in the backbone, with parameters of
    the same shapes. *)
Hypothesis sources_fit : forall i dst,
  target !! i = Some dst ->
  exists src, source_layer SSD_backbone i = Some src /\
    map shape (weights src) = map shape (weights dst).

Lemma transplant_step_spec (s : TransplantState A) (k : nat) :
  (k < length target)%nat ->
  (k <= 13 -> ssd_seq_idx s = 0)%nat ->
  transplanted SSD_backbone target k (VGG16_tilStage5 s) ->
  exists s', transplant_step SSD_backbone s k = Ok s' /\
    (S k <= 13 -> ssd_seq_idx s' = 0)%nat /\
    transplanted SSD_backbone target (S k) (VGG16_tilStage5 s').
Proof using sources_fit.
  intros Hk Hseq (Hlen & Hdone & Hrest).
  destruct (lookup_lt_is_Some_2 target k Hk) as [dst Hdst].
  destruct (sources_fit k dst Hdst) as (src & Hsrc & Hshape).
  unfold transplant_step.
  assert (Hmap : (if bool_decide (13 <= k)%nat then (1%nat, (k - 13)%nat)
                  else (ssd_seq_idx s, k)) = mapIndex k).
  { unfold mapIndex. repeat case_bool_decide; try lia; try reflexivity.
    rewrite Hseq by lia. reflexivity. }
  rewrite Hmap. unfold source_layer in Hsrc.
  destruct (mapIndex k) as [seq_idx layer_idx] eqn:Hidx. simpl in Hsrc.
  destruct (SSD_backbone !! seq_idx) as [stack|] eqn:Hstack; [|discriminate].
  simpl in Hsrc.
  rewrite (get_layer_Ok _ k dst) by (rewrite Hrest by lia; exact Hdst).
  rewrite bind_Ok, (get_layer_Ok _ _ _ Hstack), bind_Ok.
  rewrite (get_layer_Ok _ _ _ Hsrc), bind_Ok.
  unfold set_weights. rewrite bool_decide_eq_true_2 by exact Hshape.
  rewrite bind_Ok.
  rewrite (get_layer_Ok _ k (mkLayer (weights src) (trainable dst)))
    by (apply list_lookup_insert_eq; lia).
  rewrite bind_Ok. eexists. split; [reflexivity|]. simpl. split; [|split; [|split]].
  - intros Hk13. unfold mapIndex in Hidx.
    rewrite bool_decide_eq_true_2 in Hidx by lia. congruence.
  - rewrite !length_insert. exact Hlen.
  - intros i Hi Hit. destruct (decide (i = k)) as [->|Hne].
    + exists src. split.
      * unfold source_layer. rewrite Hidx. simpl. rewrite Hstack. exact Hsrc.
      * rewrite list_lookup_insert_eq by (rewrite length_insert; lia). reflexivity.
    + rewrite !list_lookup_insert_ne by congruence. apply Hdone; lia.
  - intros i Hi. rewrite !list_lookup_insert_ne by lia. apply Hrest. lia.
Qed.

Lemma transplant_upto_spec (k : nat) :
  (k <= length target)%nat ->
  exists s, transplant_upto k SSD_backbone target = Ok s /\
    (k <= 13 -> ssd_seq_idx s = 0)%nat /\
    transplanted SSD_backbone target k (VGG16_tilStage5 s).
Proof using sources_fit.
  induction k as [|k IH]; intros Hk.
  - eexists. split; [reflexivity|]. split; [reflexivity|].
    split; [reflexivity|]. split; [intros; lia|reflexivity].
  - destruct IH as (s & Hs & Hseq & Htr); [lia|].
    destruct (transplant_step_spec s k) as (s' & Hs' & Hseq' & Htr'); [lia|assumption..|].
    exists s'. split; [|split; assumption].
    unfold transplant_upto in *. rewrite seq_S, foldM_app, Hs, bind_Ok. simpl.
    rewrite Hs'. reflexivity.
Qed.

(** C4.  The transplant copies into every target layer [i] the parameters
    of backbone sub-stack 0, layer [i], when [i < 13], and of sub-stack 1,
    layer [i - 13], when [i >= 13], and marks the layer non-trainable in
    the same round, before the next layer is touched: after [k] rounds the
    first [k] layers are copied and frozen and the others untouched, and
    the whole loop leaves every layer of the target copied and frozen. *)
Theorem transplant_copies_and_freezes :
  (forall k, (k <= length target)%nat ->
     exists s, transplant_upto k SSD_backbone target = Ok s /\
       forall i dst, target !! i = Some dst ->
         exists src,
           SSD_backbone !! (if bool_decide (i < 13)%nat then 0 else 1)%nat
             ≫= (fun stack => stack !! (if bool_decide (i < 13) then i else i - 13)%nat)
             = Some src /\
           VGG16_tilStage5 s !! i =
             Some (if bool_decide (i < k)%nat then mkLayer (weights src) false else dst)) /\
  exists layers, transplant SSD_backbone target = Ok layers /\
    length layers = length target /\
    forall i, (i < length target)%nat ->
      exists src, source_layer SSD_backbone i = Some src /\
        layers !! i = Some (mkLayer (weights src) false).
Proof using sources_fit.
  split.
  - intros k Hk. destruct (transplant_upto_spec k Hk) as (s & Hs & _ & Hlen & Hdone & Hrest).
    exists s. split; [exact Hs|]. intros i dst Hdst.
    destruct (sources_fit i dst Hdst) as (src & Hsrc & _).
    exists src. split.
    + unfold source_layer, mapIndex in Hsrc. case_bool_decide; exact Hsrc.
    + pose proof (lookup_lt_Some _ _ _ Hdst) as Hi.
      case_bool_decide.
      * destruct (Hdone i) as (src' & Hsrc' & Hl); [lia..|]. congruence.
      * rewrite Hrest by lia. exact Hdst.
  - destruct (transplant_upto_spec (length target)) as (s & Hs & _ & Hlen & Hdone & _);
      [lia|].
    exists (VGG16_tilStage5 s). split; [|split].
    + unfold transplant. rewrite Hs. reflexivity.
    + exact Hlen.
    + intros i Hi. apply Hdone; lia.
Qed.
End TransplantProperties.

Lemma toy_sources_fit (i : nat) (dst : Layer Z) :
  Toy.target !! i = Some dst ->
  exists src, source_layer Toy.backbone i = Some src /\
    map shape (weights src) = map shape (weights dst).
Proof.
  intros Hdst.
  do 15 (destruct i as [|i];
         [injection Hdst as <-; eexists; split; reflexivity|]).
  discriminate Hdst.
Qed.

Lemma transplant_copies_and_freezes_witness :
  (forall i dst, Toy.target !! i = Some dst ->
     exists src, source_layer Toy.backbone i = Some src /\
       map shape (weights src) = map shape (weights dst)) /\
  exists layers, transplant Toy.backbone Toy.target = Ok layers /\
    length layers = length Toy.target /\
    forall i, (i < length Toy.target)%nat ->
      exists src, source_layer Toy.backbone i = Some src /\
        layers !! i = Some (mkLayer (weights src) false).
Proof.
  split; [exact toy_sources_fit|].
  exact (proj2 (transplant_copies_and_freezes Toy.backbone Toy.target toy_sources_fit)).
Defined.

(** The transplant run on the small instance: layer 12 comes from sub-stack
    0, layers 13 and 14 from sub-stack 1, all frozen. *)
Example transplant_toy :
  exists layers, transplant Toy.backbone Toy.target = Ok layers /\
    drop 12 layers =
      [mkLayer [mkTensor [1%nat] [12%Z]] false;
       mkLayer [mkTensor [1%nat] [100%Z]] false;
       mkLayer [mkTensor [1%nat] [101%Z]] false].
Proof. eexists. split; reflexivity. Qed.

(** A target layer whose parameters have another shape stops the
    construction. *)
Example transplant_shape_mismatch :
  transplant Toy.backbone (<[3%nat := mkLayer [mkTensor [2%nat] [0%Z; 0%Z]] true]> Toy.target)
  = Raise ValueError.
Proof. reflexivity. Qed.

(** ** The taps of the feature extractor *)

Lemma mapM_Ok_length {X Y : Type} (f : X -> result Y) (l : list X) (ys : list Y) :
  mapM f l = Ok ys -> length ys = length l.
Proof.
  revert ys. induction l as [|x l IH]; intros ys Hm; simpl in Hm.
  - injection Hm as <-. reflexivity.
  - destruct (f x) as [y|e]; [|discriminate]. rewrite bind_Ok in Hm.
    destruct (mapM f l) as [ys'|e]; [|discriminate]. rewrite bind_Ok in Hm.
    injection Hm as <-. simpl. rewrite (IH ys') by reflexivity. reflexivity.
Qed.

Lemma taps_foldl {A : Type} (layer_call : Layer A -> Tensor A -> Tensor A)
    (ls : list (Layer A)) (taps : list (Tensor A)) (x : Tensor A) :
  length (foldl (fun '(taps, x) l => (taps ++ [x], layer_call l x)) (taps, x) ls).1
  = (length taps + length ls)%nat.
Proof.
  revert taps x. induction ls as [|l ls IH]; intros taps x; simpl.
  - lia.
  - rewrite IH, length_app. simpl. lia.
Qed.

(** The model built by the constructor has six style taps and the content
    tap. *)
Lemma build_model_taps {A : Type} (layer_call : Layer A -> Tensor A -> Tensor A)
    (layers : list (Layer A)) (model : Tensor A -> list (Tensor A)) :
  build_model layer_call layers = Ok model ->
  forall x, length (model x) = 7%nat.
Proof.
  unfold build_model. intros Hb x.
  destruct (get_layer layers 0) as [first|e]; [|discriminate]. rewrite bind_Ok in Hb.
  destruct (mapM (get_layer layers) (seq 1 6)) as [style_part|e] eqn:Hs; [|discriminate].
  rewrite bind_Ok in Hb.
  destruct (mapM (get_layer layers) (seq 7 _)) as [rest|e]; [|discriminate].
  rewrite bind_Ok in Hb. injection Hb as <-.
  pose proof (taps_foldl layer_call style_part [] (layer_call first x)) as Hlen.
  destruct (foldl _ _ style_part) as [taps y]. simpl in Hlen.
  rewrite length_app, Hlen, (mapM_Ok_length _ _ _ Hs). reflexivity.
Qed.

(** ** The precision selector *)

Section ConstructorProperties.
Context {A : Type}.
Variable layer_call : Layer A -> Tensor A -> Tensor A.
Variable SSD300_getVGG16 : string -> Z -> option string -> result (list (list (Layer A))).
Variable VGG16_getUntilStage5 : string -> nat * nat * nat -> result (list (Layer A)).

(** C9.  A precision selector other than 32 or 16 makes the constructor
    raise at once, whatever the other arguments and the backbone are; 32
    selects [tf.float32] and 16 selects [tf.float16]. *)
Theorem floatType_selector (floatx tracker_ssd_path : string)
    (ssd_weights_path : option string) (classes float_type : Z) :
  select_floatType 32 floatx = Ok (tf_float32, floatx) /\
  select_floatType 16 floatx = Ok (tf_float16, "float16"%string) /\
  (float_type <> 32%Z -> float_type <> 16%Z ->
   __init__ layer_call SSD300_getVGG16 VGG16_getUntilStage5 floatx tracker_ssd_path
     ssd_weights_path classes float_type
   = Raise (Exception "floatType should be either 32 or 16")) /\
  (forall m floatx',
     __init__ layer_call SSD300_getVGG16 VGG16_getUntilStage5 floatx tracker_ssd_path
       ssd_weights_path classes float_type = Ok (m, floatx') ->
     (float_type = 32%Z /\ floatType m = tf_float32) \/
     (float_type = 16%Z /\ floatType m = tf_float16)).
Proof.
  split; [reflexivity|]. split; [reflexivity|]. split.
  - intros H32 H16. unfold __init__, select_floatType.
    rewrite !bool_decide_eq_false_2 by assumption. reflexivity.
  - intros m floatx' Hinit. unfold __init__, select_floatType in Hinit.
    repeat case_bool_decide; subst; [left|right|discriminate Hinit];
      (rewrite bind_Ok in Hinit; cbn beta iota in Hinit;
       destruct (SSD300_getVGG16 _ _ _) as [b|]; [|discriminate Hinit];
       rewrite bind_Ok in Hinit;
       destruct (VGG16_getUntilStage5 _ _) as [t|]; [|discriminate Hinit];
       rewrite bind_Ok in Hinit;
       destruct (transplant b t) as [l|]; [|discriminate Hinit];
       rewrite bind_Ok in Hinit;
       destruct (build_model layer_call l) as [f|]; [|discriminate Hinit];
       rewrite bind_Ok in Hinit;
       injection Hinit as <- _; split; reflexivity).
Qed.
End ConstructorProperties.

(** ** The drivers *)

Example inferOnVideo_clip :
  exists anim,
    Toy.inferOnVideo "style.jpg" (1 # 2) 1 "clip.mp4" "out.gif" 1 3 1 None 30 false false 2
      = Ok anim /\
    map (fun t => map Qred (data t)) (anim_frames anim) = [[13 # 2; 15 # 2]; [19 # 2; 255]].
Proof. eexists. split; [reflexivity|]. vm_compute. reflexivity. Qed.

Section FrameLoop.
Context {Optimizer PILImage Frame : Type}.
Variable body : VideoState Optimizer PILImage -> Frame -> result (VideoState Optimizer PILImage).
Variables start_idx end_idx skip : Z.

(** A read that fails ends the loop with the frames collected so far. *)
Lemma frame_loop_exhausted (rounds : nat) (i : Z) (s : VideoState Optimizer PILImage) :
  frame_loop body start_idx end_idx skip rounds [] i s = Ok s.
Proof. destruct rounds; reflexivity. Qed.

(** Frames up to the start index are read and dropped, whatever [skip] is. *)
Lemma frame_loop_before_start (rounds : nat) (cap : list Frame) (i : Z)
    (s : VideoState Optimizer PILImage) :
  (i + Z.of_nat (length cap) <= start_idx)%Z ->
  frame_loop body start_idx end_idx skip rounds cap i s = Ok s.
Proof.
  revert cap i. induction rounds as [|rounds IH]; intros cap i Hi; [reflexivity|].
  destruct cap as [|frame cap]; [reflexivity|]. simpl in *.
  rewrite bool_decide_eq_true_2 by lia. apply IH. lia.
Qed.

Lemma selected_frames_beyond (upper from : Z) (cap : list Frame) :
  (upper <= from)%Z -> selected_frames start_idx upper skip from cap = [].
Proof.
  revert from. induction cap as [|frame cap IH]; intros from Hf; [reflexivity|].
  simpl. rewrite bool_decide_eq_false_2 by lia. apply IH. lia.
Qed.

Lemma selected_frames_upper (upper upper' from : Z) (cap : list Frame) :
  (forall k, from <= k -> k < upper <-> k < upper')%Z ->
  selected_frames start_idx upper skip from cap
  = selected_frames start_idx upper' skip from cap.
Proof.
  revert from. induction cap as [|frame cap IH]; intros from Hu; [reflexivity|].
  simpl. rewrite (IH (from + 1)%Z) by (intros k Hk; apply Hu; lia).
  pose proof (Hu from ltac:(lia)) as Hfrom.
  repeat case_bool_decide; try reflexivity; exfalso; intuition lia.
Qed.

(** The loop processes, in order, the frames of 0-based index [k] with
    [start_idx <= k], [k] below the number of rounds, and [k + 1] a
    multiple of [skip]. *)
Lemma frame_loop_selected (rounds : nat) (cap : list Frame) (i : Z)
    (s : VideoState Optimizer PILImage) :
  skip <> 0%Z ->
  (end_idx < 0 \/ i + Z.of_nat rounds <= end_idx)%Z ->
  frame_loop body start_idx end_idx skip rounds cap i s
  = foldM body s (selected_frames start_idx (i + Z.of_nat rounds) skip i cap).
Proof.
  intros Hskip. revert cap i s. induction rounds as [|rounds IH]; intros cap i s Hend.
  - rewrite selected_frames_beyond by lia. reflexivity.
  - destruct cap as [|frame cap]; [reflexivity|].
    replace (i + Z.of_nat (S rounds))%Z with (i + 1 + Z.of_nat rounds)%Z by lia.
    simpl frame_loop. simpl selected_frames.
    destruct (decide (i + 1 <= start_idx)%Z) as [Hstart|Hstart].
    + rewrite bool_decide_eq_true_2 by exact Hstart.
      rewrite bool_decide_eq_false_2 by lia. apply IH. lia.
    + rewrite (bool_decide_eq_false_2 (i + 1 <= start_idx)%Z) by exact Hstart.
      assert (Hbreak : bool_decide (0 <= end_idx)%Z && bool_decide (end_idx < i + 1)%Z = false).
      { apply andb_false_iff. destruct Hend as [Hend|Hend].
        - left. apply bool_decide_eq_false_2. lia.
        - right. apply bool_decide_eq_false_2. lia. }
      rewrite Hbreak. unfold py_mod. rewrite bool_decide_eq_false_2 by exact Hskip.
      rewrite bind_Ok.
      destruct (decide ((i + 1) `mod` skip = 0)%Z) as [Hmod|Hmod].
      * rewrite (bool_decide_eq_false_2 (_ ≠ _)) by (intros Hne; apply Hne, Hmod).
        rewrite bool_decide_eq_true_2 by (split; [lia|exact Hmod]).
        simpl foldM. destruct (body s frame) as [s'|e]; [|reflexivity].
        rewrite !bind_Ok. apply IH. lia.
      * rewrite (bool_decide_eq_true_2 (_ ≠ _)) by exact Hmod.
        rewrite bool_decide_eq_false_2 by (intros [_ Hm]; apply Hmod, Hm).
        apply IH. lia.
Qed.

Lemma foldM_appends (l : list Frame) (s s' : VideoState Optimizer PILImage) :
  (forall s1 s2 frame, body s1 frame = Ok s2 -> exists img, imgs s2 = imgs s1 ++ [img]) ->
  foldM body s l = Ok s' ->
  exists more, imgs s' = imgs s ++ more /\ length more = length l.
Proof.
  intros Hbody. revert s. induction l as [|frame l IH]; intros s Hfold; simpl in Hfold.
  - injection Hfold as <-. exists []. rewrite app_nil_r. split; reflexivity.
  - destruct (body s frame) as [s1|e] eqn:Hs1; [|discriminate].
    rewrite bind_Ok in Hfold.
    destruct (Hbody _ _ _ Hs1) as (img & Himg).
    destruct (IH _ Hfold) as (more & Hmore & Hlen).
    exists (img :: more). split.
    + rewrite Hmore, Himg, <- app_assoc. reflexivity.
    + simpl. rewrite Hlen. reflexivity.
Qed.
End FrameLoop.

Section DriverProperties.
Context {A : Type} {FA : Float A}.
Variable model : Tensor A -> list (Tensor A).
Variable tape_gradient : (Tensor A -> result A) -> Tensor A -> Tensor A.
Variable Optimizer : Type.
Variable apply_gradients : Optimizer -> Tensor A -> Tensor A -> Optimizer * Tensor A.
Variable PILImage : Type.
Variable array_to_img : Tensor A -> PILImage.
Variable to_input : PILImage -> Tensor A.
Variable img_size : PILImage -> Z * Z.
Variable img_resize : PILImage -> Z * Z -> PILImage.
Variable add_thumbnails :
  bool -> bool -> Z -> PILImage -> PILImage -> Z * Z -> Z -> PILImage -> result PILImage.
Variable Frame : Type.
Variable frame_to_img : Frame -> PILImage.
Variable pictures : gmap string PILImage.
Variable videos : gmap string (Video Frame).

Lemma process_frame_appends (style_image : Tensor A) (style_image_on_gif : PILImage)
    (epochs : Z) (add_content_img add_style_img : bool) (line_width : Z)
    (s s' : VideoState Optimizer PILImage) (frame : Frame) :
  process_frame model tape_gradient apply_gradients array_to_img
    to_input img_size img_resize add_thumbnails frame_to_img
    style_image style_image_on_gif epochs add_content_img add_style_img line_width
    s frame = Ok s' ->
  exists img, imgs s' = imgs s ++ [img].
Proof.
  unfold process_frame. intros Hp.
  destruct (training _ _ _ _ _ _ _ _) as [[opt' snapshots]|e]; [|discriminate].
  rewrite bind_Ok in Hp. cbn beta iota in Hp.
  destruct (py_last snapshots) as [image_result|e]; [|discriminate].
  rewrite bind_Ok in Hp.
  destruct (add_thumbnails _ _ _ _ _ _ _ _) as [img|e]; [|discriminate].
  rewrite bind_Ok in Hp. injection Hp as <-. exists img. reflexivity.
Qed.

(** The loop of [inferOnVideo] as a fold over the selected frames. *)
Lemma collect_frames_fold (style_image_path : string) (style_picture : PILImage)
    (opt : Optimizer) (epochs : Z) (video_path : string) (start_idx end_idx skip : Z)
    (resize : option (Z * Z)) (add_content_img add_style_img : bool) (line_width : Z) :
  skip <> 0%Z ->
  pictures !! style_image_path = Some style_picture ->
  collect_frames model tape_gradient apply_gradients array_to_img
    to_input img_size img_resize add_thumbnails frame_to_img pictures videos
    style_image_path opt epochs video_path start_idx end_idx skip resize
    add_content_img add_style_img line_width
  = foldM
      (process_frame model tape_gradient apply_gradients array_to_img
         to_input img_size img_resize add_thumbnails frame_to_img
         (to_input style_picture) (array_to_img (squeeze (to_input style_picture)))
         epochs add_content_img add_style_img line_width)
      (mkVideoState resize opt [])
      (selected_frames start_idx
         (if bool_decide (end_idx = -1)%Z
          then CAP_PROP_FRAME_COUNT (VideoCapture videos video_path) else end_idx)
         skip 0 (video_frames (VideoCapture videos video_path))).
Proof.
  intros Hskip Hstyle.
  unfold collect_frames, Image_open. rewrite Hstyle, bind_Ok.
  rewrite frame_loop_selected.
  - f_equal. apply selected_frames_upper. intros k Hk.
    repeat case_bool_decide; try congruence; lia.
  - exact Hskip.
  - repeat case_bool_decide; try congruence; lia.
Qed.

(** C7, as the code has it.  With [skip] other than 0, [inferOnVideo]
    stylises and appends, in order, exactly the frames whose 0-based index
    [k] lies in [[start_idx, upper)] and whose 1-based position [k + 1] is a
    multiple of [skip], where [upper] is [end_idx], or the frame count the
    container announces when [end_idx] is -1; a read that fails ends the
    loop normally with the frames collected so far. *)
Theorem collect_frames_selection (style_image_path : string) (style_picture : PILImage)
    (opt : Optimizer) (epochs : Z) (video_path : string) (start_idx end_idx skip : Z)
    (resize : option (Z * Z)) (add_content_img add_style_img : bool) (line_width : Z) :
  skip <> 0%Z ->
  pictures !! style_image_path = Some style_picture ->
  collect_frames model tape_gradient apply_gradients array_to_img
    to_input img_size img_resize add_thumbnails frame_to_img pictures videos
    style_image_path opt epochs video_path start_idx end_idx skip resize
    add_content_img add_style_img line_width
  = foldM
      (process_frame model tape_gradient apply_gradients array_to_img
         to_input img_size img_resize add_thumbnails frame_to_img
         (to_input style_picture) (array_to_img (squeeze (to_input style_picture)))
         epochs add_content_img add_style_img line_width)
      (mkVideoState resize opt [])
      (selected_frames start_idx
         (if bool_decide (end_idx = -1)%Z
          then CAP_PROP_FRAME_COUNT (VideoCapture videos video_path) else end_idx)
         skip 0 (video_frames (VideoCapture videos video_path))) /\
  (forall s,
     collect_frames model tape_gradient apply_gradients array_to_img
       to_input img_size img_resize add_thumbnails frame_to_img pictures videos
       style_image_path opt epochs video_path start_idx end_idx skip resize
       add_content_img add_style_img line_width = Ok s ->
     length (imgs s)
     = length (selected_frames start_idx
                 (if bool_decide (end_idx = -1)%Z
                  then CAP_PROP_FRAME_COUNT (VideoCapture videos video_path) else end_idx)
                 skip 0 (video_frames (VideoCapture videos video_path)))) /\
  (forall (body : VideoState Optimizer PILImage -> Frame -> result (VideoState Optimizer PILImage))
          rounds i s,
     frame_loop body start_idx end_idx skip rounds [] i s = Ok s).
Proof.
  intros Hskip Hstyle.
  pose proof (collect_frames_fold style_image_path style_picture opt epochs video_path
                start_idx end_idx skip resize add_content_img add_style_img line_width
                Hskip Hstyle) as Heq.
  split; [exact Heq|]. split.
  - intros s Hs. rewrite Heq in Hs.
    destruct (foldM_appends _ _ _ s (fun s1 s2 frame =>
                process_frame_appends _ _ _ _ _ _ s1 s2 frame) Hs)
      as (more & Hmore & Hlen).
    rewrite Hmore. exact Hlen.
  - intros body rounds i s. apply frame_loop_exhausted.
Qed.


(** [inferOnImage] opens the picture at "imgs/content.jpg" whatever
    [image_path] is, and its result does not depend on [image_path]. *)
Lemma inferOnImage_ignores_image_path (style_image_path : string) (opt : Optimizer)
    (epochs : Z) (image_path image_path' out_path : string) (resize : option (Z * Z))
    (add_content_img add_style_img : bool) (line_width : Z) :
  content_image_init pictures image_path = Image_open pictures "imgs/content.jpg" /\
  inferOnImage model tape_gradient apply_gradients array_to_img
    to_input img_size img_resize add_thumbnails pictures
    style_image_path opt epochs image_path out_path resize
    add_content_img add_style_img line_width
  = inferOnImage model tape_gradient apply_gradients array_to_img
      to_input img_size img_resize add_thumbnails pictures
      style_image_path opt epochs image_path' out_path resize
      add_content_img add_style_img line_width.
Proof. split; reflexivity. Qed.
End DriverProperties.

Lemma collect_frames_selection_witness :
  (2 <> 0)%Z /\
  Toy.pictures !! "style.jpg"%string = Some Toy.style /\
  Toy.collect_frames "style.jpg" (1 # 2) 1 "clip.mp4" 0 5 2 None false false 2
  = foldM
      (process_frame Toy.model (Toy.tape_gradient 1) Toy.sgd Toy.array_to_img
         Toy.to_input Toy.img_size Toy.img_resize Toy.add_thumbnails Toy.frame_to_img
         (Toy.to_input Toy.style) (Toy.array_to_img (squeeze (Toy.to_input Toy.style)))
         1 false false 2)
      (mkVideoState None (1 # 2) [])
      (selected_frames 0
         (if bool_decide (5 = -1)%Z
          then CAP_PROP_FRAME_COUNT (VideoCapture Toy.videos "clip.mp4") else 5%Z)
         2 0 (video_frames (VideoCapture Toy.videos "clip.mp4"))).
Proof.
  assert (H1 : (2 <> 0)%Z) by discriminate.
  assert (H2 : Toy.pictures !! "style.jpg"%string = Some Toy.style) by reflexivity.
  split; [exact H1|]. split; [exact H2|].
  exact (proj1 (collect_frames_selection Toy.model (Toy.tape_gradient 1) Q Toy.sgd
                  (Tensor Q) Toy.array_to_img Toy.to_input Toy.img_size Toy.img_resize
                  Toy.add_thumbnails (Tensor Q) Toy.frame_to_img Toy.pictures Toy.videos
                  "style.jpg" Toy.style (1 # 2) 1 "clip.mp4" 0 5 2 None false false 2
                  H1 H2)).
Defined.

(** Of the three frames of the clip, a stride of 2 keeps the second one,
    also when the requested end lies beyond the end of the clip. *)
Example collect_frames_stride :
  exists s,
    Toy.collect_frames "style.jpg" (1 # 2) 1 "clip.mp4" 0 5 2 None false false 2 = Ok s /\
    map (fun t => map Qred (data t)) (imgs s) = [[13 # 2; 15 # 2]].
Proof. eexists. split; [reflexivity|]. vm_compute. reflexivity. Qed.

(** C7, as stated, fails for the default [end_idx = -1]: no index lies in
    [[0, -1)], yet the three frames of the clip are all stylised; and it
    fails for [skip = 0], where the loop ends in ZeroDivisionError. *)
Lemma collect_frames_default_end :
  selected_frames 0 (-1) 1 0 (video_frames Toy.clip) = [] /\
  (exists s,
     Toy.collect_frames "style.jpg" (1 # 2) 0 "clip.mp4" 0 (-1) 1 None false false 2 = Ok s /\
     length (imgs s) = 3%nat) /\
  Toy.collect_frames "style.jpg" (1 # 2) 0 "clip.mp4" 0 3 0 None false false 2
  = Raise ZeroDivisionError.
Proof.
  split; [reflexivity|]. split; [|reflexivity].
  eexists. split; reflexivity.
Qed.


(** A path that cannot be opened as a video ends the same way. *)
Example inferOnVideo_unreadable :
  Toy.inferOnVideo "style.jpg" (1 # 2) 1 "missing.mp4" "out.gif" 0 (-1) 1 None 30 false false 2
  = Raise IndexError.
Proof. reflexivity. Qed.

(** C6 on a concrete call: asked for "photo.jpg", [inferOnImage] opens and
    stylises the picture at "imgs/content.jpg". *)
Theorem inferOnImage_photo :
  Image_open Toy.pictures "photo.jpg" = Ok Toy.photo /\
  content_image_init Toy.pictures "photo.jpg" = Ok Toy.picture /\
  Toy.inferOnImage "style.jpg" (1 # 2) 0 "photo.jpg" "out.png" None false false 2
  = Ok ("out.png"%string, squeeze Toy.picture) /\
  squeeze (Toy.picture (A := Q)) <> squeeze Toy.photo.
Proof.
  split; [reflexivity|]. split; [reflexivity|]. split; [reflexivity|].
  intros Heq. discriminate Heq.
Qed.

Lemma floatType_selector_witness :
  (8 <> 32)%Z /\ (8 <> 16)%Z /\
  __init__ Toy.layer_call (fun _ _ _ => Ok Toy.backbone) (fun _ _ => Ok Toy.target)
    "float32" "Tracking_SSD_ReID" None 21 8
  = Raise (Exception "floatType should be either 32 or 16").
Proof.
  assert (H1 : (8 <> 32)%Z) by discriminate.
  assert (H2 : (8 <> 16)%Z) by discriminate.
  split; [exact H1|]. split; [exact H2|].
  exact (proj1 (proj2 (proj2 (floatType_selector Toy.layer_call
           (fun _ _ _ => Ok Toy.backbone) (fun _ _ => Ok Toy.target)
           "float32" "Tracking_SSD_ReID" None 21 8))) H1 H2).
Defined.

(** The constructor on the small instance, in 16-bit precision. *)
Example init_float16 :
  exists m, __init__ Toy.layer_call (fun _ _ _ => Ok Toy.backbone) (fun _ _ => Ok Toy.target)
              "float32" "Tracking_SSD_ReID" None 21 16 = Ok (m, "float16"%string) /\
    floatType m = tf_float16 /\
    Forall (fun l => trainable l = false) (tilStage5_layers m).
Proof.
  eexists. split; [reflexivity|]. split; [reflexivity|].
  repeat constructor.
Qed.

(** * Further properties of the code *)

(** ** Gram matrices *)

Lemma big_sum_nonneg (n : nat) (f : nat -> Q) :
  (forall i, (i < n)%nat -> 0 <= f i) -> 0 <= big_sum n f.
Proof.
  induction n as [|n IH]; intros Hf; simpl.
  - apply Qle_refl.
  - rewrite <- (Qplus_0_r 0). apply Qplus_le_compat; [apply IH; intros; apply Hf; lia|].
    apply Hf. lia.
Qed.

Lemma big_sum_add (a b : nat) (f : nat -> Q) :
  big_sum (a + b) f == big_sum a f + big_sum b (fun i => f (a + i)%nat).
Proof.
  induction b as [|b IH].
  - rewrite Nat.add_0_r. simpl. ring.
  - rewrite Nat.add_succ_r. simpl. rewrite IH. ring.
Qed.

(** A sum over [H * W] positions, row by row. *)
Lemma big_sum_rows (H W : nat) (g : nat -> Q) :
  big_sum (H * W) g == big_sum H (fun i => big_sum W (fun j => g (i * W + j)%nat)).
Proof.
  revert g. induction H as [|H IH]; intros g.
  - reflexivity.
  - rewrite big_sum_shift. change (S H * W)%nat with (W + H * W)%nat.
    rewrite big_sum_add, IH. apply Qplus_comp.
    + apply big_sum_ext. intros j _. reflexivity.
    + apply big_sum_ext. intros i _. apply big_sum_ext. intros j _.
      replace (W + (i * W + j))%nat with (S i * W + j)%nat by (simpl; lia). reflexivity.
Qed.

Lemma Qdiv_nonneg (a : Q) (n : nat) : 0 <= a -> 0 <= a / inject_Z (Z.of_nat n).
Proof.
  intros Ha. unfold Qdiv. apply Qmult_le_0_compat; [exact Ha|].
  apply Qinv_le_0_compat. change 0 with (inject_Z 0). rewrite <- Zle_Qle. lia.
Qed.

Lemma Qsquare_nonneg (a : Q) : 0 <= a * a.
Proof. nra. Qed.

(** X1.  [gram_calc] returns a matrix exactly when the activation has rank
    4; for every other rank the einsum raises. *)
Theorem gram_calc_rank {A : Type} {FA : Float A} (t : Tensor A) :
  (length (shape t) = 4%nat -> exists g, gram_calc t = Ok g) /\
  (length (shape t) <> 4%nat -> gram_calc t = Raise InvalidArgumentError).
Proof.
  split.
  - intros Hr. destruct (gram_calc_rank4 t Hr) as (g & Hg & _). eauto.
  - intros Hr. unfold gram_calc, einsum_bijc_bijd_bcd.
    destruct (shape t) as [|B [|H [|W [|C [|]]]]]; simpl in Hr; try reflexivity. lia.
Qed.

Lemma gram_calc_rank_witness :
  (length (shape Toy.activation) = 4%nat -> exists g, gram_calc Toy.activation = Ok g) /\
  (length (shape Toy.gram_target) <> 4%nat ->
   gram_calc Toy.gram_target = Raise InvalidArgumentError).
Proof.
  split.
  - exact (proj1 (gram_calc_rank Toy.activation)).
  - exact (proj2 (gram_calc_rank Toy.gram_target)).
Defined.

(** X2.  The diagonal entries of the Gram matrix of an activation of shape
    [(1, H, W, C)] are never negative. *)
Theorem gram_calc_diagonal (t : Tensor Q) (H W C : nat) :
  shape t = [1; H; W; C]%nat ->
  exists g, gram_calc t = Ok g /\
    forall c, (c < C)%nat -> 0 <= nth (c * C + c) (data g) 0.
Proof.
  intros Hs. destruct (gram_calc_entries t H W C Hs) as (g & Hg & _ & _ & He).
  exists g. split; [exact Hg|]. intros c Hc. rewrite (He c c Hc Hc).
  unfold gram_entry. apply Qdiv_nonneg, big_sum_nonneg. intros i _.
  apply big_sum_nonneg. intros j _. apply Qsquare_nonneg.
Qed.

Lemma gram_calc_diagonal_witness :
  shape Toy.activation = [1; 2; 1; 2]%nat /\
  exists g, gram_calc Toy.activation = Ok g /\
    forall c, (c < 2)%nat -> 0 <= nth (c * 2 + c) (data g) 0.
Proof.
  split; [reflexivity|]. exact (gram_calc_diagonal Toy.activation 2 1 2 eq_refl).
Defined.

(** X3.  The Gram matrix does not depend on how the spatial positions are
    arranged in rows: an activation of shape [(1, H, W, C)] and the same
    buffer read as [(1, 1, H * W, C)] have the same Gram matrix. *)
Theorem gram_calc_flatten_spatial (t : Tensor Q) (H W C : nat) :
  shape t = [1; H; W; C]%nat ->
  exists g g', gram_calc t = Ok g /\ gram_calc (flatten_spatial t) = Ok g' /\
    shape g' = shape g /\
    forall c d, (c < C)%nat -> (d < C)%nat ->
      nth (c * C + d) (data g') 0 == nth (c * C + d) (data g) 0.
Proof.
  intros Hs.
  destruct (gram_calc_entries t H W C Hs) as (g & Hg & Hsh & _ & He).
  assert (Hs' : shape (flatten_spatial t) = [1; 1; H * W; C]%nat).
  { unfold flatten_spatial. rewrite Hs. reflexivity. }
  destruct (gram_calc_entries _ 1 (H * W) C Hs') as (g' & Hg' & Hsh' & _ & He').
  exists g, g'. split; [exact Hg|]. split; [exact Hg'|]. split; [congruence|].
  intros c d Hc Hd. rewrite (He c d Hc Hd), (He' c d Hc Hd). unfold gram_entry.
  apply Qdiv_comp; [|rewrite Nat.mul_1_l; reflexivity].
  simpl big_sum at 1. rewrite Qplus_0_l, big_sum_rows.
  apply big_sum_ext. intros i _. apply big_sum_ext. intros j _.
  unfold at4, flatten_spatial. rewrite Hs. simpl data.
  replace (((0 * 1 + 0) * (H * W) + (i * W + j)) * C + c)%nat
    with (((0 * H + i) * W + j) * C + c)%nat by (simpl; lia).
  replace (((0 * 1 + 0) * (H * W) + (i * W + j)) * C + d)%nat
    with (((0 * H + i) * W + j) * C + d)%nat by (simpl; lia).
  reflexivity.
Qed.

Lemma gram_calc_flatten_spatial_witness :
  shape Toy.activation = [1; 2; 1; 2]%nat /\
  exists g g', gram_calc Toy.activation = Ok g /\
    gram_calc (flatten_spatial Toy.activation) = Ok g' /\
    shape g' = shape g /\
    forall c d, (c < 2)%nat -> (d < 2)%nat ->
      nth (c * 2 + d) (data g') 0 == nth (c * 2 + d) (data g) 0.
Proof.
  split; [reflexivity|]. exact (gram_calc_flatten_spatial Toy.activation 2 1 2 eq_refl).
Defined.

(** Zero among the floating-point values. *)
Lemma is_zero_finite (x : fp) : is_zero x -> is_finite x.
Proof. destruct x; simpl; tauto. Qed.

Lemma is_zero_fadd (x y : fp) : is_zero x -> is_zero y -> is_zero (fadd x y).
Proof.
  destruct x, y; simpl; try tauto. intros Hx Hy. rewrite Hx, Hy. reflexivity.
Qed.

Lemma is_zero_fmul_l (x y : fp) : is_zero x -> is_finite y -> is_zero (fmul x y).
Proof. destruct x, y; simpl; try tauto. intros Hx _. rewrite Hx. ring. Qed.

Lemma is_zero_fmul_r (x y : fp) : is_finite x -> is_zero y -> is_zero (fmul x y).
Proof. destruct x, y; simpl; try tauto. intros _ Hy. rewrite Hy. ring. Qed.

Lemma is_zero_fsub_same (x : fp) : is_finite x -> is_zero (fsub x x).
Proof. destruct x; simpl; try tauto. intros _. ring. Qed.

Lemma is_zero_fsum (l : list fp) : Forall is_zero l -> is_zero (fsum l).
Proof.
  induction 1 as [|x l Hx _ IH]; [reflexivity|].
  apply (is_zero_fadd x (fsum l) Hx IH).
Qed.

Lemma is_zero_foldl_fadd (l : list fp) (x : fp) :
  is_zero x -> Forall is_zero l -> is_zero (foldl fadd x l).
Proof.
  intros Hx Hl. revert x Hx. induction Hl as [|y l Hy _ IH]; intros x Hx; [exact Hx|].
  simpl. apply IH. apply is_zero_fadd; assumption.
Qed.

(** A zero divided by a count that is not zero. *)
Lemma is_zero_fdiv_count (x : fp) (n : nat) :
  (0 < n)%nat -> is_zero x -> is_zero (fdiv x (Fin (inject_Z (Z.of_nat n)))).
Proof.
  intros Hn. destruct x as [q| | |]; simpl; try tauto. intros Hq.
  destruct (Qeq_bool (inject_Z (Z.of_nat n)) 0) eqn:E.
  - apply Qeq_bool_eq in E. unfold Qeq in E. simpl in E. lia.
  - simpl. rewrite Hq. unfold Qdiv. ring.
Qed.

Lemma is_zero_nth (l : list fp) (k : nat) : Forall is_zero l -> is_zero (nth k l (Fin 0)).
Proof.
  intros Hl. destruct (nth_in_or_default k l (Fin 0)) as [Hin|Hdef].
  - rewrite Forall_forall in Hl. apply Hl. apply list_elem_of_In. exact Hin.
  - rewrite Hdef. reflexivity.
Qed.

(** X4.  An activation of shape (1, H, W, C) with at least one position
    ([0 < H] and [0 < W]) whose values are all zero has a Gram matrix of shape
    (1, C, C) whose C * C entries are all zero.  (Without a position the
    entries are 0/0, see [gram_calc_no_position].) *)
Theorem gram_calc_zero (t : Tensor fp) (H W C : nat) :
  shape t = [1; H; W; C]%nat ->
  (0 < H)%nat -> (0 < W)%nat ->
  Forall is_zero (data t) ->
  exists g, gram_calc t = Ok g /\ shape g = [1; C; C]%nat /\
    length (data g) = (C * C)%nat /\ Forall is_zero (data g).
Proof.
  intros Hs HH HW Hz. unfold gram_calc, einsum_bijc_bijd_bcd. rewrite Hs.
  rewrite bool_decide_eq_true_2 by auto.
  eexists. split; [reflexivity|]. split; [reflexivity|]. split.
  - simpl. rewrite length_map, app_nil_r.
    rewrite (length_bind_seq _ C) by
      (intros c'; rewrite bind_singleton_map, length_map, length_seq; reflexivity).
    reflexivity.
  - simpl data. rewrite app_nil_r. apply Forall_map.
    apply Forall_bind, Forall_forall. intros c _.
    apply Forall_bind, Forall_forall. intros d _.
    constructor; [|constructor].
    change (nth 1 [1; H; W; C] 0 * nth 2 [1; H; W; C] 0)%nat with (H * W)%nat.
    apply (is_zero_fdiv_count _ (H * W)); [nia|].
    apply is_zero_fsum.
    apply Forall_bind, Forall_forall. intros i _.
    apply Forall_bind, Forall_forall. intros j _.
    constructor; [|constructor].
    apply is_zero_fmul_l; [|apply is_zero_finite]; apply is_zero_nth; exact Hz.
Qed.

Lemma gram_calc_zero_witness :
  shape Cases.blank = [1; 1; 2; 2]%nat /\ (0 < 1)%nat /\ (0 < 2)%nat /\
  Forall is_zero (data Cases.blank) /\
  exists g, gram_calc Cases.blank = Ok g /\ shape g = [1; 2; 2]%nat /\
    length (data g) = (2 * 2)%nat /\ Forall is_zero (data g).
Proof.
  assert (Hz : Forall is_zero (data Cases.blank)).
  { repeat constructor. }
  split; [reflexivity|]. split; [exact (le_n 1)|]. split; [exact (le_S 1 1 (le_n 1))|].
  split; [exact Hz|].
  exact (gram_calc_zero Cases.blank 1 2 2 eq_refl (le_n 1) (le_S 1 1 (le_n 1)) Hz).
Defined.

(** An activation without a position, of shape (1, 0, 2, 2): every entry of
    its Gram matrix is the empty sum divided by 0, that is NaN. *)
Example gram_calc_no_position :
  gram_calc (mkTensor [1; 0; 2; 2]%nat (@nil fp))
  = Ok (mkTensor [1; 2; 2]%nat [NaN; NaN; NaN; NaN]).
Proof. reflexivity. Qed.

(** ** The loss *)

(** The value of [get_loss], for the properties below. *)
Lemma get_loss_formula (style_target style_feature : list (Tensor Q))
    (content_target content_feature : Tensor Q) :
  Forall2 comparable style_feature style_target ->
  style_feature <> [] ->
  comparable content_feature content_target ->
  exists v, get_loss style_target style_feature content_target content_feature = Ok v /\
    v == total_loss style_feature style_target content_feature content_target.
Proof.
  intros Hst Hne Hct.
  destruct (style_terms_Ok _ _ Hst) as (terms & Hm & Hl & Hsum).
  destruct (reduce_sum_square_diff _ _ Hct) as (d & Hd & Hcontent).
  destruct terms as [|x rest].
  { destruct style_feature; [congruence|discriminate]. }
  eexists. split.
  - unfold get_loss. rewrite Hm. simpl. rewrite Hd. reflexivity.
  - unfold total_loss, content_loss. simpl.
    rewrite foldl_Qplus, Hcontent, <- Hsum, fsum_Q_cons. reflexivity.
Qed.

Lemma sum_sq_diff_nonneg (n : nat) (a b : list Q) : 0 <= sum_sq_diff n a b.
Proof. apply big_sum_nonneg. intros k _. apply Qsquare_nonneg. Qed.

Lemma sum_sq_diff_sym (n : nat) (a b : list Q) : sum_sq_diff n a b == sum_sq_diff n b a.
Proof. apply big_sum_ext. intros k _. ring. Qed.

Lemma style_loss_nonneg (gs ts : list (Tensor Q)) : 0 <= style_loss gs ts.
Proof.
  revert ts. induction gs as [|g gs IH]; intros [|t ts]; simpl; try apply Qle_refl.
  rewrite <- (Qplus_0_r 0). apply Qplus_le_compat; [|apply IH].
  apply Qdiv_nonneg, sum_sq_diff_nonneg.
Qed.

Lemma style_loss_sym (gs ts : list (Tensor Q)) :
  Forall2 comparable gs ts -> style_loss gs ts == style_loss ts gs.
Proof.
  induction 1 as [|g t gs ts (Hs & _ & _) _ IH]; simpl; [reflexivity|].
  rewrite IH. unfold mean_sq_diff. rewrite Hs, sum_sq_diff_sym. reflexivity.
Qed.

Lemma comparable_sym {A : Type} (g t : Tensor A) : comparable g t -> comparable t g.
Proof. intros (Hs & Hg & Ht). repeat split; auto. Qed.

Lemma is_zero_sub_same (l : list fp) :
  Forall is_finite l -> Forall is_zero (zip_with sub l l).
Proof.
  induction 1 as [|x l Hx _ IH]; [constructor|].
  constructor; [exact (is_zero_fsub_same x Hx)|exact IH].
Qed.

Lemma is_zero_squares (l : list fp) :
  Forall is_zero l -> Forall is_zero (map (fun v => mul v v) l).
Proof.
  intros Hl. apply Forall_map. eapply Forall_impl; [exact Hl|].
  intros x Hx. apply (is_zero_fmul_l x x Hx (is_zero_finite x Hx)).
Qed.

(** The style terms of identical finite matrices that have an element. *)
Lemma style_terms_identical (style : list (Tensor fp)) :
  Forall (fun t => Forall is_finite (data t) /\ (0 < numel (shape t))%nat) style ->
  exists terms,
    mapM (fun '(features, targets) =>
            d ← tsub features targets; Ok (reduce_mean (square d)))
         (zip style style) = Ok terms /\
    length terms = length style /\ Forall is_zero terms.
Proof.
  induction 1 as [|t style [Hf Hn] _ IH].
  - exists []. repeat split. constructor.
  - destruct IH as (terms & Hm & Hl & Hz).
    eexists (_ :: terms). split; [|split].
    + change (zip (t :: style) (t :: style)) with ((t, t) :: zip style style).
      apply mapM_cons_Ok; [|exact Hm]. rewrite (tsub_Ok t t eq_refl). reflexivity.
    + simpl. rewrite Hl. reflexivity.
    + constructor; [|exact Hz].
      apply (is_zero_fdiv_count _ (numel (shape t)) Hn).
      apply is_zero_fsum, is_zero_squares, is_zero_sub_same, Hf.
Qed.

(** X5.  On identical generated and target inputs with finite values (a
    non-empty list of style matrices that have at least one element each,
    the same content tensor on both sides) [get_loss] returns 0: the style
    loss and the content loss both vanish.  (A matrix without an element or
    an infinite value gives NaN, see [get_loss_identical_nan].) *)
Theorem get_loss_identical (style : list (Tensor fp)) (content : Tensor fp) :
  style <> [] ->
  Forall (fun t => Forall is_finite (data t) /\ (0 < numel (shape t))%nat) style ->
  Forall is_finite (data content) ->
  exists v, get_loss style style content content = Ok v /\ is_zero v.
Proof.
  intros Hne Hst Hct.
  destruct (style_terms_identical style Hst) as (terms & Hm & Hl & Hz).
  destruct terms as [|x rest].
  { destruct style; [congruence|discriminate]. }
  inversion Hz as [|? ? Hx Hrest]; subst.
  eexists. split.
  - unfold get_loss. rewrite Hm, bind_Ok. unfold add_n. rewrite bind_Ok.
    rewrite (tsub_Ok content content eq_refl), !bind_Ok. reflexivity.
  - apply is_zero_fadd.
    + apply is_zero_fmul_r; [exact I|]. apply is_zero_foldl_fadd; assumption.
    + apply is_zero_fmul_r; [exact I|]. apply is_zero_fmul_r; [exact I|].
      apply is_zero_fsum, is_zero_squares, is_zero_sub_same, Hct.
Qed.

Lemma get_loss_identical_witness :
  [finite Toy.gram_generated] <> [] /\
  Forall (fun t => Forall is_finite (data t) /\ (0 < numel (shape t))%nat)
    [finite Toy.gram_generated] /\
  Forall is_finite (data (finite Toy.content_generated)) /\
  exists v, get_loss [finite Toy.gram_generated] [finite Toy.gram_generated]
              (finite Toy.content_generated) (finite Toy.content_generated) = Ok v /\
    is_zero v.
Proof.
  assert (H1 : [finite Toy.gram_generated] <> []) by discriminate.
  assert (H2 : Forall (fun t => Forall is_finite (data t) /\ (0 < numel (shape t))%nat)
                 [finite Toy.gram_generated]).
  { constructor; [|constructor]. split; [repeat constructor|]. vm_compute. lia. }
  assert (H3 : Forall is_finite (data (finite Toy.content_generated))).
  { repeat constructor. }
  split; [exact H1|]. split; [exact H2|]. split; [exact H3|].
  exact (get_loss_identical [finite Toy.gram_generated] (finite Toy.content_generated)
           H1 H2 H3).
Defined.

(** Identical inputs on which the loss is NaN: a style matrix of shape
    (1, 0, 0), whose mean is 0/0, and a content tensor with an infinite
    value, whose difference with itself is NaN. *)
Example get_loss_identical_nan :
  get_loss [mkTensor [1; 0; 0]%nat (@nil fp)] [mkTensor [1; 0; 0]%nat []]
    (finite Toy.content_generated) (finite Toy.content_generated) = Ok NaN /\
  get_loss [finite Toy.gram_generated] [finite Toy.gram_generated]
    (mkTensor [1; 1; 1; 1]%nat [PInf]) (mkTensor [1; 1; 1; 1]%nat [PInf]) = Ok NaN.
Proof. split; reflexivity. Qed.

(** X6.  The loss is never negative. *)
Theorem get_loss_nonneg (style_target style_feature : list (Tensor Q))
    (content_target content_feature : Tensor Q) :
  Forall2 comparable style_feature style_target ->
  style_feature <> [] ->
  comparable content_feature content_target ->
  exists v, get_loss style_target style_feature content_target content_feature = Ok v /\
    0 <= v.
Proof.
  intros Hst Hne Hct.
  destruct (get_loss_formula _ _ _ _ Hst Hne Hct) as (v & Hv & Heq).
  exists v. split; [exact Hv|]. rewrite Heq. unfold total_loss, content_loss.
  pose proof (style_loss_nonneg style_feature style_target) as Hs.
  pose proof (sum_sq_diff_nonneg (numel (shape content_feature))
                (data content_feature) (data content_target)) as Hc.
  rewrite <- (Qplus_0_r 0). apply Qplus_le_compat.
  - apply Qmult_le_0_compat; [discriminate|exact Hs].
  - apply Qmult_le_0_compat; [discriminate|].
    apply Qmult_le_0_compat; [discriminate|exact Hc].
Qed.

Lemma get_loss_nonneg_witness :
  Forall2 comparable [Toy.gram_generated] [Toy.gram_target] /\
  [Toy.gram_generated] <> [] /\
  comparable Toy.content_generated Toy.content_target /\
  exists v, get_loss [Toy.gram_target] [Toy.gram_generated]
              Toy.content_target Toy.content_generated = Ok v /\ 0 <= v.
Proof.
  assert (H1 : Forall2 comparable [Toy.gram_generated] [Toy.gram_target]).
  { constructor; [|constructor]. repeat split. }
  assert (H2 : [Toy.gram_generated] <> []) by discriminate.
  assert (H3 : comparable Toy.content_generated Toy.content_target) by (repeat split).
  split; [exact H1|]. split; [exact H2|]. split; [exact H3|].
  exact (get_loss_nonneg [Toy.gram_target] [Toy.gram_generated]
           Toy.content_target Toy.content_generated H1 H2 H3).
Defined.

(** X7.  The loss does not change when the generated features and the
    targets change places. *)
Theorem get_loss_symmetric (style_target style_feature : list (Tensor Q))
    (content_target content_feature : Tensor Q) :
  Forall2 comparable style_feature style_target ->
  style_feature <> [] ->
  comparable content_feature content_target ->
  exists v w,
    get_loss style_target style_feature content_target content_feature = Ok v /\
    get_loss style_feature style_target content_feature content_target = Ok w /\
    v == w.
Proof.
  intros Hst Hne Hct.
  destruct (get_loss_formula _ _ _ _ Hst Hne Hct) as (v & Hv & Heqv).
  assert (Hts : Forall2 comparable style_target style_feature).
  { apply Forall2_flip. eapply Forall2_impl; [exact Hst|]. intros g t. apply comparable_sym. }
  assert (Hne' : style_target <> []).
  { intros ->. inversion Hst. congruence. }
  destruct (get_loss_formula _ _ _ _ Hts Hne' (comparable_sym _ _ Hct)) as (w & Hw & Heqw).
  exists v, w. split; [exact Hv|]. split; [exact Hw|].
  rewrite Heqv, Heqw. unfold total_loss, content_loss.
  destruct Hct as (Hs & _ & _).
  rewrite (style_loss_sym _ _ Hst), Hs, sum_sq_diff_sym. reflexivity.
Qed.

Lemma get_loss_symmetric_witness :
  Forall2 comparable [Toy.gram_generated] [Toy.gram_target] /\
  [Toy.gram_generated] <> [] /\
  comparable Toy.content_generated Toy.content_target /\
  exists v w,
    get_loss [Toy.gram_target] [Toy.gram_generated]
      Toy.content_target Toy.content_generated = Ok v /\
    get_loss [Toy.gram_generated] [Toy.gram_target]
      Toy.content_generated Toy.content_target = Ok w /\
    v == w.
Proof.
  assert (H1 : Forall2 comparable [Toy.gram_generated] [Toy.gram_target]).
  { constructor; [|constructor]. repeat split. }
  assert (H2 : [Toy.gram_generated] <> []) by discriminate.
  assert (H3 : comparable Toy.content_generated Toy.content_target) by (repeat split).
  split; [exact H1|]. split; [exact H2|]. split; [exact H3|].
  exact (get_loss_symmetric [Toy.gram_target] [Toy.gram_generated]
           Toy.content_target Toy.content_generated H1 H2 H3).
Defined.

Lemma zip_app_l {X Y : Type} (l1 more : list X) (l2 : list Y) :
  length l1 = length l2 -> zip (l1 ++ more) l2 = zip l1 l2.
Proof.
  revert l2. induction l1 as [|x l1 IH]; intros [|y l2] Hl; simpl in *; try discriminate.
  - destruct more; reflexivity.
  - f_equal. apply IH. lia.
Qed.

Lemma zip_app_r {X Y : Type} (l1 : list X) (l2 more : list Y) :
  length l1 = length l2 -> zip l1 (l2 ++ more) = zip l1 l2.
Proof.
  revert l2. induction l1 as [|x l1 IH]; intros [|y l2] Hl; simpl in *; try discriminate.
  - reflexivity.
  - f_equal. apply IH. lia.
Qed.

(** X8.  Style layers without a partner are ignored: when one of the two
    sequences is longer than the other, [zip] drops its surplus and the loss
    is that of the matched pairs. *)
Theorem get_loss_unmatched_layers {A : Type} {FA : Float A}
    (style_target style_feature more : list (Tensor A))
    (content_target content_feature : Tensor A) :
  length style_feature = length style_target ->
  get_loss style_target (style_feature ++ more) content_target content_feature
  = get_loss style_target style_feature content_target content_feature /\
  get_loss (style_target ++ more) style_feature content_target content_feature
  = get_loss style_target style_feature content_target content_feature.
Proof.
  intros Hl. unfold get_loss. rewrite zip_app_l, zip_app_r by assumption.
  split; reflexivity.
Qed.

Lemma get_loss_unmatched_layers_witness :
  length [Toy.gram_generated] = length [Toy.gram_target] /\
  get_loss [Toy.gram_target] ([Toy.gram_generated] ++ [Toy.activation])
    Toy.content_target Toy.content_generated
  = get_loss [Toy.gram_target] [Toy.gram_generated]
      Toy.content_target Toy.content_generated /\
  get_loss ([Toy.gram_target] ++ [Toy.activation]) [Toy.gram_generated]
    Toy.content_target Toy.content_generated
  = get_loss [Toy.gram_target] [Toy.gram_generated]
      Toy.content_target Toy.content_generated.
Proof.
  split; [reflexivity|].
  exact (get_loss_unmatched_layers [Toy.gram_target] [Toy.gram_generated]
           [Toy.activation] Toy.content_target Toy.content_generated eq_refl).
Defined.

(** ** The optimisation loop *)

Lemma iterM_succ_last {S : Type} (n : nat) (f : S -> result S) (s : S) :
  iterM (Datatypes.S n) f s = (s1 ← iterM n f s; f s1).
Proof.
  revert s. induction n as [|n IH]; intros s.
  - simpl. destruct (f s); reflexivity.
  - change (iterM (Datatypes.S (Datatypes.S n)) f s)
      with (s' ← f s; iterM (Datatypes.S n) f s').
    change (iterM (Datatypes.S n) f s) with (s' ← f s; iterM n f s').
    destruct (f s) as [s'|e]; [|reflexivity]. rewrite !bind_Ok. apply IH.
Qed.

Section TrainingEdges.
Context {A : Type} {FA : Float A}.
Variable model : Tensor A -> list (Tensor A).
Variable tape_gradient : (Tensor A -> result A) -> Tensor A -> Tensor A.
Variable Optimizer : Type.
Variable apply_gradients : Optimizer -> Tensor A -> Tensor A -> Optimizer * Tensor A.
Variable PILImage : Type.
Variable array_to_img : Tensor A -> PILImage.

Lemma training_step_appends (style_targets : list (Tensor A)) (content_targets : Tensor A)
    (s s' : TrainState A Optimizer PILImage) :
  training_step model tape_gradient apply_gradients array_to_img
    style_targets content_targets s = Ok s' ->
  images s' = images s ++ [array_to_img (squeeze (generated_image s'))].
Proof.
  unfold training_step. intros Hstep.
  destruct (recorded_loss model style_targets content_targets (generated_image s))
    as [loss|e]; [|discriminate].
  rewrite bind_Ok in Hstep.
  destruct (apply_gradients _ _ _) as [opt' updated].
  injection Hstep as <-. reflexivity.
Qed.

(** Without a round, [training] needs the two forward passes only. *)
Lemma training_nonpos (style_image content_image : Tensor A) (opt : Optimizer) (N : Z)
    (fs fc : list (Tensor A) * Tensor A) :
  (N <= 0)%Z ->
  get_features model style_image = Ok fs ->
  get_features model content_image = Ok fc ->
  training model tape_gradient apply_gradients array_to_img
    style_image content_image opt N
  = Ok (opt, [array_to_img (squeeze content_image)]).
Proof.
  intros HN Hfs Hfc. unfold training. rewrite Hfs, bind_Ok. destruct fs as [st c0].
  cbn beta iota. rewrite Hfc, bind_Ok. destruct fc as [g0 ct]. cbn beta iota.
  rewrite Z2Nat.nonpos by exact HN. reflexivity.
Qed.

(** X10.  One more epoch adds one picture and changes none: a run of
    [N + 1] epochs that returns has the pictures of the run of [N] epochs,
    which returns too, followed by one more. *)
Theorem training_one_more_epoch (style_image content_image : Tensor A) (opt opt2 : Optimizer)
    (N : Z) (snapshots2 : list PILImage) :
  (0 <= N)%Z ->
  training model tape_gradient apply_gradients array_to_img
    style_image content_image opt (N + 1) = Ok (opt2, snapshots2) ->
  exists opt1 snapshots1 img,
    training model tape_gradient apply_gradients array_to_img
      style_image content_image opt N = Ok (opt1, snapshots1) /\
    snapshots2 = snapshots1 ++ [img].
Proof.
  intros HN. unfold training.
  destruct (get_features model style_image) as [[st c0]|e]; [|discriminate].
  rewrite !bind_Ok. cbn beta iota.
  destruct (get_features model content_image) as [[g0 ct]|e]; [|discriminate].
  rewrite !bind_Ok. cbn beta iota.
  replace (Z.to_nat (N + 1)) with (S (Z.to_nat N)) by lia.
  rewrite iterM_succ_last.
  destruct (iterM (Z.to_nat N) _ _) as [s1|e]; [|discriminate].
  rewrite !bind_Ok.
  destruct (training_step _ _ _ _ _ _ s1) as [s2|e] eqn:Hstep; [|discriminate].
  rewrite bind_Ok. intros [= <- <-].
  eexists _, _, _. split; [reflexivity|].
  apply (training_step_appends _ _ _ _ Hstep).
Qed.
End TrainingEdges.

Lemma training_one_more_epoch_witness :
  (0 <= 1)%Z /\
  exists opt2 snapshots2,
    training Toy.model (Toy.tape_gradient 1) Toy.sgd Toy.array_to_img
      Toy.style Toy.picture (1 # 2) (1 + 1) = Ok (opt2, snapshots2) /\
    exists opt1 snapshots1 img,
      training Toy.model (Toy.tape_gradient 1) Toy.sgd Toy.array_to_img
        Toy.style Toy.picture (1 # 2) 1 = Ok (opt1, snapshots1) /\
      snapshots2 = snapshots1 ++ [img].
Proof.
  assert (H1 : (0 <= 1)%Z) by discriminate.
  split; [exact H1|]. eexists _, _. split; [reflexivity|].
  exact (training_one_more_epoch Toy.model (Toy.tape_gradient 1) Q Toy.sgd (Tensor Q)
           Toy.array_to_img Toy.style Toy.picture (1 # 2) _ 1 _ H1 eq_refl).
Defined.

(** ** The clamp, once more *)

Lemma clip_pixel_twice (u : fp) :
  maximum (minimum (maximum (minimum u (of_Q 255)) (of_Q 0)) (of_Q 255)) (of_Q 0)
  = maximum (minimum u (of_Q 255)) (of_Q 0).
Proof.
  destruct u as [q| | |]; try reflexivity. simpl.
  destruct (Qle_bool q 255) eqn:Hhi; simpl.
  - destruct (Qle_bool q 0) eqn:Hlo; simpl.
    + reflexivity.
    + rewrite Hhi. simpl. rewrite Hlo. reflexivity.
  - reflexivity.
Qed.

(** X11.  Clamping twice is clamping once: [tf.clip_by_value(_, 0.0, 255.0)]
    leaves an image it has produced as it is, NaN pixels included. *)
Theorem clip_by_value_idempotent (t : Tensor fp) :
  clip_by_value (clip_by_value t (of_Q 0) (of_Q 255)) (of_Q 0) (of_Q 255)
  = clip_by_value t (of_Q 0) (of_Q 255).
Proof.
  unfold clip_by_value. simpl. f_equal. rewrite map_map.
  apply map_ext. intros u. apply clip_pixel_twice.
Qed.

(** ** The weight transplant, further *)

Lemma foldM_snoc {S X : Type} (f : S -> X -> result S) (s : S) (l : list X) (x : X) :
  foldM f s (l ++ [x]) = (s1 ← foldM f s l; f s1 x).
Proof.
  rewrite foldM_app. destruct (foldM f s l) as [s1|e]; [|reflexivity].
  rewrite !bind_Ok. simpl. destruct (f s1 x); reflexivity.
Qed.

Lemma get_layer_error {X : Type} (layers : list X) (index : nat) (e : exn) :
  get_layer layers index = Raise e -> e = ValueError.
Proof. unfold get_layer. destruct (layers !! index); congruence. Qed.

Lemma get_layer_Ok_inv {X : Type} (layers : list X) (index : nat) (l : X) :
  get_layer layers index = Ok l -> layers !! index = Some l.
Proof. unfold get_layer. destruct (layers !! index); congruence. Qed.

Section TransplantEdges.
Context {A : Type}.
Variable SSD_backbone : list (list (Layer A)).
Variable target : list (Layer A).

(** A round that succeeds has found the source the mapping designates, with
    parameters of the shapes of the target layer. *)
Lemma transplant_step_inv (s s' : TransplantState A) (k : nat) :
  transplant_step SSD_backbone s k = Ok s' ->
  untouched_from target k s ->
  (exists dst src, target !! k = Some dst /\
     source_layer SSD_backbone k = Some src /\
     map shape (weights src) = map shape (weights dst)) /\
  untouched_from target (S k) s'.
Proof.
  intros Hstep (Hlen & Hseq & Hrest). unfold transplant_step in Hstep.
  assert (Hmap : (if bool_decide (13 <= k)%nat then (1%nat, (k - 13)%nat)
                  else (ssd_seq_idx s, k)) = mapIndex k).
  { unfold mapIndex. repeat case_bool_decide; try lia; try reflexivity.
    rewrite Hseq by lia. reflexivity. }
  rewrite Hmap in Hstep. clear Hmap.
  destruct (mapIndex k) as [seq_idx layer_idx] eqn:Hidx.
  destruct (get_layer (VGG16_tilStage5 s) k) as [dst|e] eqn:Hdst; [|discriminate].
  rewrite bind_Ok in Hstep. apply get_layer_Ok_inv in Hdst.
  destruct (get_layer SSD_backbone seq_idx) as [stack|e] eqn:Hstack; [|discriminate].
  rewrite bind_Ok in Hstep. apply get_layer_Ok_inv in Hstack.
  destruct (get_layer stack layer_idx) as [src|e] eqn:Hsrc; [|discriminate].
  rewrite bind_Ok in Hstep. apply get_layer_Ok_inv in Hsrc.
  unfold set_weights in Hstep. case_bool_decide as Hshape; [|discriminate].
  rewrite bind_Ok in Hstep.
  pose proof (lookup_lt_Some _ _ _ Hdst) as Hk.
  rewrite (get_layer_Ok _ k (mkLayer (weights src) (trainable dst))) in Hstep
    by (apply list_lookup_insert_eq; lia).
  rewrite bind_Ok in Hstep. injection Hstep as <-. split.
  - exists dst, src. split; [rewrite <- Hrest by lia; exact Hdst|]. split; [|exact Hshape].
    unfold source_layer. rewrite Hidx. simpl. rewrite Hstack. exact Hsrc.
  - split; [|split]; simpl.
    + rewrite !length_insert. exact Hlen.
    + intros Hk13. unfold mapIndex in Hidx.
      rewrite bool_decide_eq_true_2 in Hidx by lia. congruence.
    + intros i Hi. rewrite !list_lookup_insert_ne by lia. apply Hrest. lia.
Qed.

Lemma transplant_upto_inv (k : nat) (s : TransplantState A) :
  transplant_upto k SSD_backbone target = Ok s ->
  untouched_from target k s /\
  forall i, (i < k)%nat ->
    exists dst src, target !! i = Some dst /\
      source_layer SSD_backbone i = Some src /\
      map shape (weights src) = map shape (weights dst).
Proof.
  revert s. induction k as [|k IH]; intros s Hs.
  - injection Hs as <-. split; [repeat split|]. intros i Hi. lia.
  - unfold transplant_upto in Hs. rewrite seq_S, foldM_snoc in Hs. simpl in Hs.
    destruct (foldM (transplant_step SSD_backbone) _ (seq 0 k)) as [s1|e] eqn:Hs1;
      [|discriminate].
    rewrite bind_Ok in Hs. destruct (IH s1 Hs1) as [Hun Hfit].
    destruct (transplant_step_inv s1 s k Hs Hun) as [Hk Hun'].
    split; [exact Hun'|]. intros i Hi.
    destruct (decide (i = k)) as [->|Hne]; [exact Hk|]. apply Hfit. lia.
Qed.

Lemma transplant_Ok_fits (layers : list (Layer A)) :
  transplant SSD_backbone target = Ok layers -> fits_backbone SSD_backbone target.
Proof.
  unfold transplant. intros Ht.
  destruct (transplant_upto (length target) SSD_backbone target) as [s|e] eqn:Hs;
    [|discriminate].
  destruct (transplant_upto_inv _ _ Hs) as [_ Hfit].
  intros i dst Hdst.
  destruct (Hfit i (lookup_lt_Some _ _ _ Hdst)) as (dst' & src & Hdst' & Hsrc & Hshape).
  exists src. split; [exact Hsrc|]. congruence.
Qed.

(** What a transplant that succeeds leaves: as many layers, each with the
    parameters of its source and frozen. *)
Lemma transplant_Ok_layers (layers : list (Layer A)) :
  transplant SSD_backbone target = Ok layers ->
  length layers = length target /\
  forall i, (i < length target)%nat ->
    exists src, source_layer SSD_backbone i = Some src /\
      layers !! i = Some (mkLayer (weights src) false).
Proof.
  intros Ht. pose proof (transplant_Ok_fits layers Ht) as Hfit.
  destruct (transplant_upto_spec SSD_backbone target Hfit (length target))
    as (s & Hs & _ & Hlen & Hdone & _); [lia|].
  unfold transplant in Ht. rewrite Hs, bind_Ok in Ht. injection Ht as <-.
  split; [exact Hlen|]. intros i Hi. apply Hdone; lia.
Qed.

Lemma transplant_error (e : exn) :
  transplant SSD_backbone target = Raise e -> e = ValueError.
Proof.
  unfold transplant, transplant_upto.
  generalize (mkTransplantState 0 0 target) as s. generalize (seq 0 (length target)) as l.
  induction l as [|i l IH]; intros s; simpl; [discriminate|].
  destruct (transplant_step SSD_backbone s i) as [s'|e'] eqn:Hstep.
  - rewrite bind_Ok. apply IH.
  - simpl. intros [= <-]. clear IH. unfold transplant_step in Hstep.
    destruct (if bool_decide (13 <= i)%nat then _ else _) as [seq_idx layer_idx].
    destruct (get_layer (VGG16_tilStage5 s) i) as [dst|e0] eqn:H1;
      [rewrite bind_Ok in Hstep|injection Hstep as <-; exact (get_layer_error _ _ _ H1)].
    destruct (get_layer SSD_backbone seq_idx) as [stack|e0] eqn:H2;
      [rewrite bind_Ok in Hstep|injection Hstep as <-; exact (get_layer_error _ _ _ H2)].
    destruct (get_layer stack layer_idx) as [src|e0] eqn:H3;
      [rewrite bind_Ok in Hstep|injection Hstep as <-; exact (get_layer_error _ _ _ H3)].
    unfold set_weights in Hstep. case_bool_decide; [|injection Hstep as <-; reflexivity].
    rewrite bind_Ok in Hstep.
    destruct (get_layer (<[i:=_]> _) i) as [frozen|e0] eqn:H4;
      [discriminate|injection Hstep as <-; exact (get_layer_error _ _ _ H4)].
Qed.

(** X12.  The transplant succeeds exactly when every target layer has its
    source layer in the backbone with parameters of the same shapes: it
    never goes on with a missing source or with mismatched shapes. *)
Theorem transplant_succeeds_iff :
  (exists layers, transplant SSD_backbone target = Ok layers) <->
  fits_backbone SSD_backbone target.
Proof.
  split.
  - intros [layers Ht]. exact (transplant_Ok_fits layers Ht).
  - intros Hfit.
    destruct (transplant_upto_spec SSD_backbone target Hfit (length target))
      as (s & Hs & _); [lia|].
    exists (VGG16_tilStage5 s). unfold transplant. rewrite Hs. reflexivity.
Qed.

(** X13.  A target layer without a source of the same parameter shapes
    makes the transplant raise ValueError. *)
Theorem transplant_mismatch (i : nat) (dst : Layer A) :
  target !! i = Some dst ->
  (forall src, source_layer SSD_backbone i = Some src ->
     map shape (weights src) <> map shape (weights dst)) ->
  transplant SSD_backbone target = Raise ValueError.
Proof.
  intros Hdst Hbad.
  destruct (transplant SSD_backbone target) as [layers|e] eqn:Ht.
  - destruct (transplant_Ok_fits layers Ht i dst Hdst) as (src & Hsrc & Hshape).
    destruct (Hbad src Hsrc Hshape).
  - rewrite (transplant_error e Ht). reflexivity.
Qed.
End TransplantEdges.

(** X14.  Transplanting again changes nothing: on the layers a transplant
    has produced, a second transplant from the same backbone succeeds and
    returns the same layers. *)
Theorem transplant_idempotent {A : Type} (SSD_backbone : list (list (Layer A)))
    (target layers : list (Layer A)) :
  transplant SSD_backbone target = Ok layers ->
  transplant SSD_backbone layers = Ok layers.
Proof.
  intros Ht. destruct (transplant_Ok_layers _ _ _ Ht) as [Hlen Hl].
  assert (Hfit : fits_backbone SSD_backbone layers).
  { intros i dst Hdst.
    destruct (Hl i) as (src & Hsrc & Hi);
      [rewrite <- Hlen; exact (lookup_lt_Some _ _ _ Hdst)|].
    exists src. split; [exact Hsrc|]. rewrite Hi in Hdst. injection Hdst as <-. reflexivity. }
  destruct (transplant_upto_spec SSD_backbone layers Hfit (length layers))
    as (s & Hs & _ & Hlen2 & Hdone & _); [lia|].
  unfold transplant. rewrite Hs, bind_Ok. f_equal.
  apply list_eq. intros i. destruct (decide (i < length layers)%nat) as [Hi|Hi].
  - destruct (Hdone i Hi Hi) as (src & Hsrc & Hi2).
    destruct (Hl i) as (src' & Hsrc' & Hi1); [lia|].
    rewrite Hi1, Hi2. congruence.
  - rewrite !lookup_ge_None_2 by lia. reflexivity.
Qed.

Lemma transplant_succeeds_iff_witness :
  fits_backbone Toy.backbone Toy.target /\
  exists layers, transplant Toy.backbone Toy.target = Ok layers.
Proof.
  split; [exact toy_sources_fit|].
  exact (proj2 (transplant_succeeds_iff Toy.backbone Toy.target) toy_sources_fit).
Defined.

Lemma transplant_mismatch_witness :
  <[3%nat := mkLayer [mkTensor [2%nat] [0%Z; 0%Z]] true]> Toy.target !! 3%nat
    = Some (mkLayer [mkTensor [2%nat] [0%Z; 0%Z]] true) /\
  (forall src, source_layer Toy.backbone 3 = Some src ->
     map shape (weights src)
     <> map shape (weights (mkLayer [mkTensor [2%nat] [0%Z; 0%Z]] true))) /\
  transplant Toy.backbone (<[3%nat := mkLayer [mkTensor [2%nat] [0%Z; 0%Z]] true]> Toy.target)
  = Raise ValueError.
Proof.
  assert (H1 : <[3%nat := mkLayer [mkTensor [2%nat] [0%Z; 0%Z]] true]> Toy.target !! 3%nat
               = Some (mkLayer [mkTensor [2%nat] [0%Z; 0%Z]] true)) by reflexivity.
  assert (H2 : forall src, source_layer Toy.backbone 3 = Some src ->
     map shape (weights src)
     <> map shape (weights (mkLayer [mkTensor [2%nat] [0%Z; 0%Z]] true))).
  { intros src Hsrc. injection Hsrc as <-. discriminate. }
  split; [exact H1|]. split; [exact H2|].
  exact (transplant_mismatch Toy.backbone _ 3 _ H1 H2).
Defined.

Lemma transplant_idempotent_witness :
  exists layers,
    transplant Toy.backbone Toy.target = Ok layers /\
    transplant Toy.backbone layers = Ok layers.
Proof.
  eexists. split; [reflexivity|].
  exact (transplant_idempotent Toy.backbone Toy.target _ eq_refl).
Defined.

(** ** The graph of the feature extractor *)

Lemma mapM_get_layer {X : Type} (layers : list X) (n a : nat) :
  (a + n <= length layers)%nat ->
  mapM (get_layer layers) (seq a n) = Ok (take n (drop a layers)).
Proof.
  revert a. induction n as [|n IH]; intros a Ha; [reflexivity|].
  destruct (lookup_lt_is_Some_2 layers a ltac:(lia)) as [l Hl].
  simpl seq. erewrite mapM_cons_Ok; [| apply get_layer_Ok, Hl | apply IH; lia].
  f_equal. rewrite (drop_S _ _ _ Hl). reflexivity.
Qed.

Lemma get_layer_None {X : Type} (layers : list X) (index : nat) :
  layers !! index = None -> get_layer layers index = Raise ValueError.
Proof. intros Hl. unfold get_layer. rewrite Hl. reflexivity. Qed.

Lemma mapM_get_layer_short {X : Type} (layers : list X) (n a : nat) :
  (0 < n)%nat -> (length layers < a + n)%nat ->
  mapM (get_layer layers) (seq a n) = Raise ValueError.
Proof.
  revert a. induction n as [|n IH]; intros a Hn Ha; [lia|].
  simpl. destruct (layers !! a) as [l|] eqn:Hl.
  - rewrite (get_layer_Ok _ _ _ Hl), bind_Ok. pose proof (lookup_lt_Some _ _ _ Hl).
    rewrite IH by lia. reflexivity.
  - rewrite (get_layer_None _ _ Hl). reflexivity.
Qed.

Lemma run_layers_app {A : Type} (layer_call : Layer A -> Tensor A -> Tensor A)
    (l1 l2 : list (Layer A)) (x : Tensor A) :
  run_layers layer_call (l1 ++ l2) x = run_layers layer_call l2 (run_layers layer_call l1 x).
Proof. unfold run_layers. apply foldl_app. Qed.

(** The taps recorded along a chain of layers: before each layer, what the
    layers before it have made of the input. *)
Lemma taps_foldl_chain {A : Type} (layer_call : Layer A -> Tensor A -> Tensor A)
    (ls : list (Layer A)) (taps : list (Tensor A)) (x : Tensor A) :
  foldl (fun '(taps, x) l => (taps ++ [x], layer_call l x)) (taps, x) ls
  = (taps ++ map (fun k => run_layers layer_call (take k ls) x) (seq 0 (length ls)),
     run_layers layer_call ls x).
Proof.
  revert taps x. induction ls as [|l ls IH]; intros taps x.
  - simpl. rewrite app_nil_r. reflexivity.
  - simpl foldl. rewrite IH. f_equal. rewrite <- app_assoc. f_equal.
    simpl length. simpl seq. rewrite <- seq_shift. simpl map. rewrite map_map.
    reflexivity.
Qed.

Section ExtractorGraph.
Context {A : Type}.
Variable layer_call : Layer A -> Tensor A -> Tensor A.

(** What [build_model] returns on seven layers or more. *)
Lemma build_model_Ok (layers : list (Layer A)) :
  (7 <= length layers)%nat ->
  exists first,
    layers !! 0%nat = Some first /\
    build_model layer_call layers
    = Ok (fun inputs =>
            let x := layer_call first inputs in
            let '(style_layers, x) :=
              foldl (fun '(taps, x) l => (taps ++ [x], layer_call l x)) ([], x)
                (take 6 (drop 1 layers)) in
            let x := foldl (fun x l => layer_call l x) x
                       (take (length layers - 2 - 7) (drop 7 layers)) in
            let content_layers := [x] in
            style_layers ++ content_layers).
Proof.
  intros Hlen. destruct (lookup_lt_is_Some_2 layers 0 ltac:(lia)) as [first Hfirst].
  exists first. split; [exact Hfirst|]. unfold build_model.
  rewrite (get_layer_Ok _ _ _ Hfirst), bind_Ok.
  rewrite (mapM_get_layer layers 6 1) by lia. rewrite bind_Ok.
  rewrite (mapM_get_layer layers _ 7) by lia. rewrite bind_Ok. reflexivity.
Qed.

Lemma build_model_short (layers : list (Layer A)) :
  (length layers < 7)%nat -> build_model layer_call layers = Raise ValueError.
Proof.
  intros Hlen. unfold build_model.
  destruct (layers !! 0%nat) as [first|] eqn:Hfirst.
  - rewrite (get_layer_Ok _ _ _ Hfirst), bind_Ok.
    rewrite (mapM_get_layer_short layers 6 1) by lia. reflexivity.
  - rewrite (get_layer_None _ _ Hfirst). reflexivity.
Qed.

Lemma build_model_Ok_length (layers : list (Layer A)) (model : Tensor A -> list (Tensor A)) :
  build_model layer_call layers = Ok model -> (7 <= length layers)%nat.
Proof.
  intros Hb. destruct (le_lt_dec 7 (length layers)) as [Hle|Hlt]; [exact Hle|].
  rewrite (build_model_short layers Hlt) in Hb. discriminate.
Qed.

(** X15.  The constructor can wire the model exactly when the truncated
    VGG-16 has seven layers or more; with fewer, a layer of the first seven
    is missing and [get_layer] raises ValueError. *)
Theorem build_model_needs_seven_layers (layers : list (Layer A)) :
  ((7 <= length layers)%nat -> exists model, build_model layer_call layers = Ok model) /\
  ((length layers < 7)%nat -> build_model layer_call layers = Raise ValueError).
Proof.
  split.
  - intros Hlen. destruct (build_model_Ok layers Hlen) as (first & _ & Hb). eauto.
  - apply build_model_short.
Qed.

(** X16.  In the model the constructor wires, style tap [k] (for [k] from 0
    to 5) is the output of layer [k], that is, layers 0 to [k] applied to the
    input, and the content tap is the output of layer [len - 3] (of layer 6
    when there are fewer than 9 layers): from 9 layers on, the last two
    layers of the truncated VGG-16 are never applied. *)
Theorem build_model_taps_chain (layers : list (Layer A))
    (model : Tensor A -> list (Tensor A)) (x : Tensor A) :
  build_model layer_call layers = Ok model ->
  (forall k, (k < 6)%nat ->
     model x !! k = Some (run_layers layer_call (take (S k) layers) x)) /\
  model x !! 6%nat
  = Some (run_layers layer_call (take (7 `max` (length layers - 2)) layers) x) /\
  length (model x) = 7%nat.
Proof.
  intros Hb.
  pose proof (build_model_Ok_length layers model Hb) as Hlen.
  destruct (build_model_Ok layers Hlen) as (first & Hfirst & Hb').
  rewrite Hb' in Hb. injection Hb as <-. cbv zeta.
  rewrite taps_foldl_chain. cbn beta iota.
  assert (Hsix : length (take 6 (drop 1 layers)) = 6%nat).
  { rewrite length_take, length_drop. lia. }
  rewrite Hsix, app_nil_l.
  assert (Hcons : forall n, take (S n) layers = first :: take n (drop 1 layers)).
  { intros n. destruct layers as [|l0 ls]; [discriminate|].
    injection Hfirst as ->. reflexivity. }
  split; [|split].
  - intros k Hk. rewrite lookup_app_l by (rewrite length_map, length_seq; exact Hk).
    rewrite list_lookup_fmap, lookup_seq_lt by exact Hk. simpl.
    rewrite take_take, Hcons, Nat.min_l by lia. reflexivity.
  - rewrite lookup_app_r by (rewrite length_map, length_seq; lia).
    rewrite length_map, length_seq. simpl. f_equal.
    change (run_layers layer_call (take (length layers - 2 - 7) (drop 7 layers))
              (run_layers layer_call (take 6 (drop 1 layers)) (layer_call first x))
            = run_layers layer_call (take (7 `max` (length layers - 2)) layers) x).
    rewrite <- run_layers_app.
    change (run_layers layer_call
              (first :: take 6 (drop 1 layers)
                 ++ take (length layers - 2 - 7) (drop 7 layers)) x
            = run_layers layer_call (take (7 `max` (length layers - 2)) layers) x).
    f_equal. rewrite app_comm_cons, <- Hcons, take_take_drop. f_equal. lia.
  - rewrite length_app, length_map, length_seq. reflexivity.
Qed.
End ExtractorGraph.

Lemma build_model_needs_seven_layers_witness :
  ((7 <= length Toy.target)%nat ->
   exists model, build_model Toy.layer_call Toy.target = Ok model) /\
  ((length (take 6 Toy.target) < 7)%nat ->
   build_model Toy.layer_call (take 6 Toy.target) = Raise ValueError).
Proof.
  split.
  - exact (proj1 (build_model_needs_seven_layers Toy.layer_call Toy.target)).
  - exact (proj2 (build_model_needs_seven_layers Toy.layer_call (take 6 Toy.target))).
Defined.

Lemma build_model_taps_chain_witness :
  exists model,
    build_model Toy.layer_call Toy.target = Ok model /\
    (forall k, (k < 6)%nat ->
       model (mkTensor [1%nat] [5%Z]) !! k
       = Some (run_layers Toy.layer_call (take (S k) Toy.target) (mkTensor [1%nat] [5%Z]))) /\
    model (mkTensor [1%nat] [5%Z]) !! 6%nat
    = Some (run_layers Toy.layer_call (take (7 `max` (length Toy.target - 2)) Toy.target)
              (mkTensor [1%nat] [5%Z])) /\
    length (model (mkTensor [1%nat] [5%Z])) = 7%nat.
Proof.
  eexists. split; [reflexivity|].
  exact (build_model_taps_chain Toy.layer_call Toy.target _ (mkTensor [1%nat] [5%Z]) eq_refl).
Defined.

(** The model wired on the transplanted layers of the small instance: the
    taps after layers 0 to 5, and the content tap after layer 12 of 15. *)
Example build_model_transplanted :
  exists layers model,
    transplant Toy.backbone Toy.target = Ok layers /\
    build_model Toy.layer_call layers = Ok model /\
    map data (model (mkTensor [1%nat] [0%Z]))
    = [[0]; [1]; [3]; [6]; [10]; [15]; [78]]%Z.
Proof. eexists _, _. split; [reflexivity|]. split; reflexivity. Qed.

Section ConstructorEdges.
Context {A : Type}.
Variable layer_call : Layer A -> Tensor A -> Tensor A.
Variable SSD300_getVGG16 : string -> Z -> option string -> result (list (list (Layer A))).
Variable VGG16_getUntilStage5 : string -> nat * nat * nat -> result (list (Layer A)).

(** X17.  An object the constructor returns has every layer of its
    truncated VGG-16 frozen, seven layers or more, a model with six style
    taps and the content tap, and leaves the global Keras float type at
    "float16" for the selector 16 and as it was otherwise. *)
Theorem init_result (floatx tracker_ssd_path : string) (ssd_weights_path : option string)
    (classes float_type : Z) (m : VGG16StyleTransfer A) (floatx' : string) :
  __init__ layer_call SSD300_getVGG16 VGG16_getUntilStage5 floatx tracker_ssd_path
    ssd_weights_path classes float_type = Ok (m, floatx') ->
  Forall (fun l => trainable l = false) (tilStage5_layers m) /\
  (7 <= length (tilStage5_layers m))%nat /\
  (forall x, length (self_model m x) = 7%nat) /\
  n_classes m = classes /\
  floatx' = (if bool_decide (float_type = 16)%Z then "float16"%string else floatx).
Proof.
  intros Hinit. unfold __init__ in Hinit.
  destruct (select_floatType float_type floatx) as [[dtype fx]|e] eqn:Hsel; [|discriminate].
  rewrite bind_Ok in Hinit. cbn beta iota in Hinit.
  destruct (SSD300_getVGG16 _ _ _) as [backbone|e]; [|discriminate].
  rewrite bind_Ok in Hinit.
  destruct (VGG16_getUntilStage5 _ _) as [target|e]; [|discriminate].
  rewrite bind_Ok in Hinit.
  destruct (transplant backbone target) as [layers|e] eqn:Ht; [|discriminate].
  rewrite bind_Ok in Hinit.
  destruct (build_model layer_call layers) as [model|e] eqn:Hb; [|discriminate].
  rewrite bind_Ok in Hinit. injection Hinit as <- <-. simpl.
  destruct (transplant_Ok_layers _ _ _ Ht) as [Hlen Hl].
  split; [|split; [|split; [|split]]].
  - apply Forall_lookup. intros i l Hi.
    destruct (Hl i) as (src & _ & Hi'); [rewrite <- Hlen; exact (lookup_lt_Some _ _ _ Hi)|].
    rewrite Hi' in Hi. injection Hi as <-. reflexivity.
  - exact (build_model_Ok_length layer_call layers model Hb).
  - exact (build_model_taps layer_call layers model Hb).
  - reflexivity.
  - unfold select_floatType in Hsel. repeat case_bool_decide; congruence.
Qed.
End ConstructorEdges.

Lemma init_result_witness :
  exists m floatx',
    __init__ Toy.layer_call (fun _ _ _ => Ok Toy.backbone) (fun _ _ => Ok Toy.target)
      "float32" "Tracking_SSD_ReID" None 21 16 = Ok (m, floatx') /\
    Forall (fun l => trainable l = false) (tilStage5_layers m) /\
    (7 <= length (tilStage5_layers m))%nat /\
    (forall x, length (self_model m x) = 7%nat) /\
    n_classes m = 21%Z /\
    floatx' = (if bool_decide (16 = 16)%Z then "float16"%string else "float32"%string).
Proof.
  eexists _, _. split; [reflexivity|].
  exact (init_result Toy.layer_call (fun _ _ _ => Ok Toy.backbone) (fun _ _ => Ok Toy.target)
           "float32" "Tracking_SSD_ReID" None 21 16 _ _ eq_refl).
Defined.

(** ** The frame loop, further *)

Section FrameLoopEdges.
Context {Optimizer PILImage Frame : Type}.
Variable body : VideoState Optimizer PILImage -> Frame -> result (VideoState Optimizer PILImage).
Variables start_idx end_idx : Z.

(** Frames beyond the rounds of the loop are not read. *)
Lemma frame_loop_prefix (skip : Z) (rounds : nat) (cap more : list Frame) (i : Z)
    (s : VideoState Optimizer PILImage) :
  (rounds <= length cap)%nat ->
  frame_loop body start_idx end_idx skip rounds (cap ++ more) i s
  = frame_loop body start_idx end_idx skip rounds cap i s.
Proof.
  revert cap i s. induction rounds as [|rounds IH]; intros cap i s Hr; [reflexivity|].
  destruct cap as [|frame cap]; [simpl in Hr; lia|]. simpl in *.
  case_bool_decide; [apply IH; lia|].
  destruct (bool_decide (0 <= end_idx)%Z && bool_decide (end_idx < i + 1)%Z); [reflexivity|].
  destruct (py_mod (i + 1) skip) as [r|e]; [|reflexivity]. rewrite !bind_Ok.
  case_bool_decide; [apply IH; lia|].
  destruct (body s frame) as [s'|e]; [|reflexivity]. rewrite !bind_Ok. apply IH. lia.
Qed.

(** With [skip = 0] the first frame past the start index stops the loop in
    ZeroDivisionError. *)
Lemma frame_loop_skip_zero (rounds : nat) (cap : list Frame) (i : Z)
    (s : VideoState Optimizer PILImage) :
  (Z.max i start_idx - i < Z.of_nat (length cap))%Z ->
  (Z.max i start_idx - i < Z.of_nat rounds)%Z ->
  (end_idx < 0 \/ Z.max i start_idx + 1 <= end_idx)%Z ->
  frame_loop body start_idx end_idx 0 rounds cap i s = Raise ZeroDivisionError.
Proof.
  revert cap i. induction rounds as [|rounds IH]; intros cap i Hc Hr Hend; [simpl in Hr; lia|].
  destruct cap as [|frame cap]; [simpl in Hc; lia|]. simpl in *.
  case_bool_decide as Hstart.
  - apply IH; lia.
  - rewrite (proj2 (andb_false_iff _ _)); [reflexivity|].
    destruct Hend as [Hend|Hend]; [left|right]; apply bool_decide_eq_false_2; lia.
Qed.

Lemma selected_frames_opp_skip (upper skip from : Z) (cap : list Frame) :
  selected_frames start_idx upper (- skip) from cap
  = selected_frames start_idx upper skip from cap.
Proof.
  revert from. induction cap as [|frame cap IH]; intros from; [reflexivity|].
  simpl. rewrite IH.
  assert (Hmod : forall a b, (a `mod` b = 0 -> a `mod` (- b) = 0)%Z).
  { intros a b Hab. destruct (decide (b = 0%Z)) as [->|Hb]; [exact Hab|].
    apply Z.mod_opp_r_z; assumption. }
  repeat case_bool_decide; try reflexivity; exfalso.
  - match goal with H : ¬ _ |- _ => apply H end.
    split; [tauto|]. rewrite <- (Z.opp_involutive skip). apply Hmod. tauto.
  - match goal with H : ¬ _ |- _ => apply H end.
    split; [tauto|]. apply Hmod. tauto.
Qed.
End FrameLoopEdges.

(** ** The drivers, further *)

Section DriverEdges.
Context {A : Type} {FA : Float A}.
Variable model : Tensor A -> list (Tensor A).
Variable tape_gradient : (Tensor A -> result A) -> Tensor A -> Tensor A.
Variable Optimizer : Type.
Variable apply_gradients : Optimizer -> Tensor A -> Tensor A -> Optimizer * Tensor A.
Variable PILImage : Type.
Variable array_to_img : Tensor A -> PILImage.
Variable to_input : PILImage -> Tensor A.
Variable img_size : PILImage -> Z * Z.
Variable img_resize : PILImage -> Z * Z -> PILImage.
Variable add_thumbnails :
  bool -> bool -> Z -> PILImage -> PILImage -> Z * Z -> Z -> PILImage -> result PILImage.
Variable Frame : Type.
Variable frame_to_img : Frame -> PILImage.
Variable pictures : gmap string PILImage.

(** X18.  A picture that cannot be opened stops a driver with
    FileNotFoundError: the style picture for [inferOnVideo], before any frame
    is read, and the picture at "imgs/content.jpg" or the style picture for
    [inferOnImage]. *)
Theorem drivers_missing_picture (videos : gmap string (Video Frame))
    (style_image_path : string) (opt : Optimizer) (epochs : Z)
    (video_path image_path out_path : string) (start_idx end_idx skip : Z)
    (resize : option (Z * Z)) (fps : Z)
    (add_content_img add_style_img : bool) (line_width : Z) :
  (pictures !! style_image_path = None ->
   inferOnVideo model tape_gradient apply_gradients array_to_img
     to_input img_size img_resize add_thumbnails frame_to_img pictures videos
     style_image_path opt epochs video_path out_path start_idx end_idx skip resize fps
     add_content_img add_style_img line_width
   = Raise FileNotFoundError) /\
  (pictures !! "imgs/content.jpg"%string = None \/ pictures !! style_image_path = None ->
   inferOnImage model tape_gradient apply_gradients array_to_img
     to_input img_size img_resize add_thumbnails pictures
     style_image_path opt epochs image_path out_path resize
     add_content_img add_style_img line_width
   = Raise FileNotFoundError).
Proof.
  split.
  - intros Hs. unfold inferOnVideo, collect_frames, Image_open. rewrite Hs. reflexivity.
  - intros Hmiss. unfold inferOnImage, content_image_init, Image_open.
    destruct (pictures !! "imgs/content.jpg"%string) as [content|] eqn:Hc; [|reflexivity].
    destruct Hmiss as [Hmiss|Hmiss]; [discriminate|].
    rewrite bind_Ok, Hmiss. reflexivity.
Qed.



(** X21.  The sign of [skip] does not matter: [inferOnVideo] with [- skip]
    does what it does with [skip]. *)
Theorem inferOnVideo_skip_sign (videos : gmap string (Video Frame))
    (style_image_path : string) (opt : Optimizer) (epochs : Z)
    (video_path out_path : string) (start_idx end_idx skip : Z)
    (resize : option (Z * Z)) (fps : Z)
    (add_content_img add_style_img : bool) (line_width : Z) :
  inferOnVideo model tape_gradient apply_gradients array_to_img
    to_input img_size img_resize add_thumbnails frame_to_img pictures videos
    style_image_path opt epochs video_path out_path start_idx end_idx (- skip) resize fps
    add_content_img add_style_img line_width
  = inferOnVideo model tape_gradient apply_gradients array_to_img
      to_input img_size img_resize add_thumbnails frame_to_img pictures videos
      style_image_path opt epochs video_path out_path start_idx end_idx skip resize fps
      add_content_img add_style_img line_width.
Proof.
  destruct (decide (skip = 0%Z)) as [->|Hskip]; [reflexivity|].
  unfold inferOnVideo. f_equal.
  destruct (pictures !! style_image_path) as [style_picture|] eqn:Hs.
  - rewrite !(collect_frames_fold _ _ _ _ _ _ _ _ _ _ _ _ _ _ style_image_path style_picture)
      by (try assumption; lia).
    rewrite selected_frames_opp_skip. reflexivity.
  - unfold collect_frames, Image_open. rewrite Hs. reflexivity.
Qed.

(** X22.  With an [end_idx] other than -1, frames of index [end_idx] or
    more are never read: two videos that agree on their first [end_idx]
    frames give the same result. *)
Theorem inferOnVideo_reads_up_to_end (videos videos' : gmap string (Video Frame))
    (cap more : list Frame) (count count' : Z)
    (style_image_path : string) (opt : Optimizer) (epochs : Z)
    (video_path out_path : string) (start_idx end_idx skip : Z)
    (resize : option (Z * Z)) (fps : Z)
    (add_content_img add_style_img : bool) (line_width : Z) :
  videos !! video_path = Some (mkVideo cap count) ->
  videos' !! video_path = Some (mkVideo (cap ++ more) count') ->
  end_idx <> (-1)%Z ->
  (end_idx <= Z.of_nat (length cap))%Z ->
  inferOnVideo model tape_gradient apply_gradients array_to_img
    to_input img_size img_resize add_thumbnails frame_to_img pictures videos'
    style_image_path opt epochs video_path out_path start_idx end_idx skip resize fps
    add_content_img add_style_img line_width
  = inferOnVideo model tape_gradient apply_gradients array_to_img
      to_input img_size img_resize add_thumbnails frame_to_img pictures videos
      style_image_path opt epochs video_path out_path start_idx end_idx skip resize fps
      add_content_img add_style_img line_width.
Proof.
  intros Hv Hv' Hend Hlen. unfold inferOnVideo, collect_frames, VideoCapture.
  rewrite Hv, Hv'. simpl. rewrite !bool_decide_eq_true_2 by exact Hend.
  destruct (Image_open pictures style_image_path) as [style_image|e]; [|reflexivity].
  rewrite !bind_Ok. rewrite frame_loop_prefix by lia. reflexivity.
Qed.

(** X23.  When no output size is given, the size of the first selected frame
    is used for every frame: the result is the one obtained by passing that
    size. *)
Theorem inferOnVideo_default_resize (videos : gmap string (Video Frame))
    (style_image_path : string) (style_picture : PILImage)
    (opt : Optimizer) (epochs : Z) (video_path out_path : string)
    (start_idx end_idx skip : Z) (fps : Z)
    (add_content_img add_style_img : bool) (line_width : Z) (frame : Frame) :
  skip <> 0%Z ->
  pictures !! style_image_path = Some style_picture ->
  head (selected_frames start_idx
          (if bool_decide (end_idx = -1)%Z
           then CAP_PROP_FRAME_COUNT (VideoCapture videos video_path) else end_idx)
          skip 0 (video_frames (VideoCapture videos video_path))) = Some frame ->
  inferOnVideo model tape_gradient apply_gradients array_to_img
    to_input img_size img_resize add_thumbnails frame_to_img pictures videos
    style_image_path opt epochs video_path out_path start_idx end_idx skip None fps
    add_content_img add_style_img line_width
  = inferOnVideo model tape_gradient apply_gradients array_to_img
      to_input img_size img_resize add_thumbnails frame_to_img pictures videos
      style_image_path opt epochs video_path out_path start_idx end_idx skip
      (Some (img_size (frame_to_img frame))) fps
      add_content_img add_style_img line_width.
Proof.
  intros Hskip Hs Hhead. unfold inferOnVideo. f_equal.
  rewrite !(collect_frames_fold _ _ _ _ _ _ _ _ _ _ _ _ _ _ style_image_path style_picture)
    by assumption.
  destruct (selected_frames _ _ _ _ _) as [|f rest]; [discriminate|].
  injection Hhead as ->. reflexivity.
Qed.

(** X24.  With a number of epochs that is zero or negative, [inferOnImage]
    optimises nothing: the picture it saves is the content picture it opened,
    converted, resized and given its thumbnails. *)
Theorem inferOnImage_no_epoch (content style_picture : PILImage)
    (fs fc : list (Tensor A) * Tensor A)
    (style_image_path : string) (opt : Optimizer) (epochs : Z)
    (image_path out_path : string) (resize : option (Z * Z))
    (add_content_img add_style_img : bool) (line_width : Z) :
  pictures !! "imgs/content.jpg"%string = Some content ->
  pictures !! style_image_path = Some style_picture ->
  (epochs <= 0)%Z ->
  get_features model (to_input style_picture) = Ok fs ->
  get_features model (to_input content) = Ok fc ->
  inferOnImage model tape_gradient apply_gradients array_to_img
    to_input img_size img_resize add_thumbnails pictures
    style_image_path opt epochs image_path out_path resize
    add_content_img add_style_img line_width
  = (image_result ←
       add_thumbnails add_content_img add_style_img line_width content
         (array_to_img (squeeze (to_input style_picture)))
         (default (img_size content) resize) (img_size content).1
         (img_resize (array_to_img (squeeze (to_input content)))
            (default (img_size content) resize));
     Ok (out_path, image_result)).
Proof.
  intros Hc Hs He Hfs Hfc. unfold inferOnImage, content_image_init, Image_open.
  rewrite Hc, bind_Ok, Hs, bind_Ok.
  rewrite (training_nonpos _ _ _ _ _ _ _ _ _ _ fs fc He Hfs Hfc), bind_Ok.
  reflexivity.
Qed.
End DriverEdges.

Lemma drivers_missing_picture_witness :
  Toy.pictures !! "absent.jpg"%string = None /\
  Toy.inferOnVideo "absent.jpg" (1 # 2) 1 "clip.mp4" "out" 0 (-1) 1 None 30 false false 2
  = Raise FileNotFoundError /\
  Toy.inferOnImage "absent.jpg" (1 # 2) 1 "photo.jpg" "out" None false false 2
  = Raise FileNotFoundError.
Proof.
  assert (H1 : Toy.pictures !! "absent.jpg"%string = None) by reflexivity.
  split; [exact H1|]. unfold Toy.inferOnVideo, Toy.inferOnImage.
  destruct (drivers_missing_picture Toy.model (Toy.tape_gradient 1) Q Toy.sgd (Tensor Q)
              Toy.array_to_img Toy.to_input Toy.img_size Toy.img_resize Toy.add_thumbnails
              (Tensor Q) Toy.frame_to_img Toy.pictures Toy.videos "absent.jpg" (1 # 2) 1
              "clip.mp4" "photo.jpg" "out" 0 (-1) 1 None 30 false false 2)
    as [Hvideo Himage].
  split; [exact (Hvideo H1)|exact (Himage (or_intror H1))].
Defined.



(** A stride of -2 keeps the frames a stride of 2 keeps. *)
Example inferOnVideo_negative_skip :
  exists anim,
    Toy.inferOnVideo "style.jpg" (1 # 2) 1 "clip.mp4" "out.gif" 0 (-1) (-2) None 30 false false 2
      = Ok anim /\
    map (fun t => map Qred (data t)) (anim_frames anim) = [[13 # 2; 15 # 2]].
Proof. eexists. split; [reflexivity|]. vm_compute. reflexivity. Qed.

Lemma inferOnVideo_reads_up_to_end_witness :
  Toy.videos !! "clip.mp4"%string = Some (mkVideo [Toy.picture; Toy.photo; Toy.picture] 3) /\
  (<["clip.mp4"%string := mkVideo ([Toy.picture; Toy.photo; Toy.picture] ++ [Toy.style]) 4]>
     (∅ : gmap string (Video (Tensor Q)))) !! "clip.mp4"%string
    = Some (mkVideo ([Toy.picture; Toy.photo; Toy.picture] ++ [Toy.style]) 4) /\
  (3 <> -1)%Z /\
  (3 <= Z.of_nat (length [Toy.picture (A := Q); Toy.photo; Toy.picture]))%Z /\
  inferOnVideo Toy.model (Toy.tape_gradient 1) Toy.sgd Toy.array_to_img
    Toy.to_input Toy.img_size Toy.img_resize Toy.add_thumbnails Toy.frame_to_img
    Toy.pictures
    (<["clip.mp4"%string := mkVideo ([Toy.picture; Toy.photo; Toy.picture] ++ [Toy.style]) 4]> ∅)
    "style.jpg" (1 # 2) 1 "clip.mp4" "out.gif" 0 3 1 None 30 false false 2
  = Toy.inferOnVideo "style.jpg" (1 # 2) 1 "clip.mp4" "out.gif" 0 3 1 None 30 false false 2.
Proof.
  assert (H1 : Toy.videos !! "clip.mp4"%string
               = Some (mkVideo [Toy.picture; Toy.photo; Toy.picture] 3)) by reflexivity.
  assert (H2 : (<["clip.mp4"%string
                   := mkVideo ([Toy.picture; Toy.photo; Toy.picture] ++ [Toy.style]) 4]>
                  (∅ : gmap string (Video (Tensor Q)))) !! "clip.mp4"%string
               = Some (mkVideo ([Toy.picture; Toy.photo; Toy.picture] ++ [Toy.style]) 4))
    by reflexivity.
  assert (H3 : (3 <> -1)%Z) by discriminate.
  assert (H4 : (3 <= Z.of_nat (length [Toy.picture (A := Q); Toy.photo; Toy.picture]))%Z)
    by discriminate.
  split; [exact H1|]. split; [exact H2|]. split; [exact H3|]. split; [exact H4|].
  unfold Toy.inferOnVideo.
  exact (inferOnVideo_reads_up_to_end Toy.model (Toy.tape_gradient 1) Q Toy.sgd (Tensor Q)
           Toy.array_to_img Toy.to_input Toy.img_size Toy.img_resize Toy.add_thumbnails
           (Tensor Q) Toy.frame_to_img Toy.pictures Toy.videos _ _ _ 3 4
           "style.jpg" (1 # 2) 1 "clip.mp4" "out.gif" 0 3 1 None 30 false false 2
           H1 H2 H3 H4).
Defined.

Lemma inferOnVideo_default_resize_witness :
  (2 <> 0)%Z /\
  Toy.pictures !! "style.jpg"%string = Some Toy.style /\
  head (selected_frames 0
          (if bool_decide (-1 = -1)%Z
           then CAP_PROP_FRAME_COUNT (VideoCapture Toy.videos "clip.mp4") else (-1)%Z)
          2 0 (video_frames (VideoCapture Toy.videos "clip.mp4"))) = Some Toy.photo /\
  Toy.inferOnVideo "style.jpg" (1 # 2) 1 "clip.mp4" "out.gif" 0 (-1) 2 None 30 false false 2
  = Toy.inferOnVideo "style.jpg" (1 # 2) 1 "clip.mp4" "out.gif" 0 (-1) 2
      (Some (Toy.img_size (Toy.frame_to_img Toy.photo))) 30 false false 2.
Proof.
  assert (H1 : (2 <> 0)%Z) by discriminate.
  assert (H2 : Toy.pictures !! "style.jpg"%string = Some Toy.style) by reflexivity.
  assert (H3 : head (selected_frames 0
          (if bool_decide (-1 = -1)%Z
           then CAP_PROP_FRAME_COUNT (VideoCapture Toy.videos "clip.mp4") else (-1)%Z)
          2 0 (video_frames (VideoCapture Toy.videos "clip.mp4"))) = Some Toy.photo)
    by reflexivity.
  split; [exact H1|]. split; [exact H2|]. split; [exact H3|]. unfold Toy.inferOnVideo.
  exact (inferOnVideo_default_resize Toy.model (Toy.tape_gradient 1) Q Toy.sgd (Tensor Q)
           Toy.array_to_img Toy.to_input Toy.img_size Toy.img_resize Toy.add_thumbnails
           (Tensor Q) Toy.frame_to_img Toy.pictures Toy.videos "style.jpg" Toy.style
           (1 # 2) 1 "clip.mp4" "out.gif" 0 (-1) 2 30 false false 2 Toy.photo H1 H2 H3).
Defined.

Lemma inferOnImage_no_epoch_witness :
  Toy.pictures !! "imgs/content.jpg"%string = Some Toy.picture /\
  Toy.pictures !! "style.jpg"%string = Some Toy.style /\
  (0 <= 0)%Z /\
  (exists fs fc, get_features Toy.model (Toy.to_input Toy.style) = Ok fs /\
     get_features Toy.model (Toy.to_input Toy.picture) = Ok fc) /\
  Toy.inferOnImage "style.jpg" (1 # 2) 0 "photo.jpg" "out.png" None false false 2
  = (image_result ←
       Toy.add_thumbnails false false 2 Toy.picture
         (Toy.array_to_img (squeeze (Toy.to_input Toy.style)))
         (default (Toy.img_size Toy.picture) None) (Toy.img_size Toy.picture).1
         (Toy.img_resize (Toy.array_to_img (squeeze (Toy.to_input Toy.picture)))
            (default (Toy.img_size Toy.picture) None));
     Ok ("out.png"%string, image_result)).
Proof.
  assert (H1 : Toy.pictures !! "imgs/content.jpg"%string = Some Toy.picture) by reflexivity.
  assert (H2 : Toy.pictures !! "style.jpg"%string = Some Toy.style) by reflexivity.
  assert (H3 : (0 <= 0)%Z) by discriminate.
  split; [exact H1|]. split; [exact H2|]. split; [exact H3|].
  split; [eexists _, _; split; reflexivity|]. unfold Toy.inferOnImage.
  exact (inferOnImage_no_epoch Toy.model (Toy.tape_gradient 1) Q Toy.sgd (Tensor Q)
           Toy.array_to_img Toy.to_input Toy.img_size Toy.img_resize Toy.add_thumbnails
           Toy.pictures Toy.picture Toy.style _ _ "style.jpg" (1 # 2) 0 "photo.jpg" "out.png"
           None false false 2 H1 H2 H3 eq_refl eq_refl).
Defined.

(** ** The pictures of a run *)

Lemma np_min_Ok (l : list fp) : l <> [] -> exists v, Keras.np_min l = Ok v.
Proof. destruct l as [|x l]; [congruence|]. intros _. eexists. reflexivity. Qed.

Lemma np_max_Ok (l : list fp) : l <> [] -> exists v, Keras.np_max l = Ok v.
Proof. destruct l as [|x l]; [congruence|]. intros _. eexists. reflexivity. Qed.

Lemma map_not_nil {X Y : Type} (f : X -> Y) (l : list X) : l <> [] -> map f l <> [].
Proof. destruct l; [congruence|discriminate]. Qed.

(** [array_to_img] takes an array of rank 3 with 1, 3 or 4 channels and at
    least one element, and makes a picture with one sample per element. *)
Lemma array_to_img_Ok (x : Tensor fp) (H W C : nat) :
  shape x = [H; W; C] ->
  C = 1%nat \/ C = 3%nat \/ C = 4%nat ->
  data x <> [] ->
  exists p, Keras.array_to_img x = Ok p /\ Keras.pic_size p = (W, H) /\
    length (Keras.pic_pixels p) = length (data x).
Proof.
  intros Hs HC Hd. unfold Keras.array_to_img. rewrite Hs.
  destruct (np_min_Ok (data x) Hd) as (lo & Hlo). rewrite Hlo, bind_Ok.
  cbn zeta.
  destruct (np_max_Ok _ (map_not_nil (fun v => fsub v lo) (data x) Hd)) as (hi & Hhi).
  rewrite Hhi, bind_Ok.
  set (scaled := map (fun v => fmul v (Fin 255)) _).
  assert (Hlen : length scaled = length (data x)).
  { unfold scaled. destruct (fne hi (Fin 0)); rewrite !length_map; reflexivity. }
  assert (Hne : scaled <> []).
  { intros Heq. rewrite Heq in Hlen. destruct (data x); [congruence|discriminate]. }
  destruct HC as [->|[->| ->]].
  - destruct (np_max_Ok scaled Hne) as (top & Htop). rewrite Htop, bind_Ok.
    destruct (fgt top (Fin 255)); eexists; (split; [reflexivity|]);
      (split; [reflexivity|]); simpl; rewrite length_map; exact Hlen.
  - eexists. split; [reflexivity|]. split; [reflexivity|].
    simpl. rewrite length_map. exact Hlen.
  - eexists. split; [reflexivity|]. split; [reflexivity|].
    simpl. rewrite length_map. exact Hlen.
Qed.

(** It refuses every array whose rank is not 3. *)
Lemma array_to_img_rank (x : Tensor fp) :
  length (shape x) <> 3%nat -> Keras.array_to_img x = Raise ValueError.
Proof.
  intros Hr. unfold Keras.array_to_img.
  destruct (shape x) as [|H [|W [|C [|]]]]; try reflexivity. simpl in Hr. lia.
Qed.

Lemma renderable_same_layout {A : Type} (t t' : Tensor A) (H W : nat) :
  shape t' = shape t -> length (data t') = length (data t) ->
  renderable t H W -> renderable t' H W.
Proof.
  intros Hs Hl (C & Hsq & HC & Hd). exists C. split; [|split; [exact HC|]].
  - unfold squeeze in *. simpl in *. rewrite Hs. exact Hsq.
  - intros Heq. rewrite Heq in Hl. destruct (data t); [congruence|discriminate].
Qed.

Lemma renderable_Ok (t : Tensor fp) (H W : nat) :
  renderable t H W ->
  exists p, Keras.array_to_img (squeeze t) = Ok p /\ Keras.pic_size p = (W, H).
Proof.
  intros (C & Hsq & HC & Hd).
  destruct (array_to_img_Ok (squeeze t) H W C Hsq (or_intror HC) Hd) as (p & Hp & Hsz & _).
  exists p. split; assumption.
Qed.

Section RenderedProperties.
Variable model : Tensor fp -> list (Tensor fp).
Variable tape_gradient : (Tensor fp -> result fp) -> Tensor fp -> Tensor fp.
Variable Optimizer : Type.
Variable apply_gradients : Optimizer -> Tensor fp -> Tensor fp -> Optimizer * Tensor fp.

(** The loop with the pictures rendered and the loop of section Training
    with [array_to_img] left to return or raise: a run of the first that
    returns is a run of the second, picture by picture. *)
Lemma rendered_step_refines (style_targets : list (Tensor fp)) (content_targets : Tensor fp)
    (s s' : TrainState fp Optimizer Keras.Picture) :
  Rendered.training_step model tape_gradient apply_gradients
    style_targets content_targets s = Ok s' ->
  training_step model tape_gradient apply_gradients Keras.array_to_img
    style_targets content_targets
    (mkTrainState (generated_image s) (optimizer s) (map Ok (images s)))
  = Ok (mkTrainState (generated_image s') (optimizer s') (map Ok (images s'))).
Proof.
  unfold Rendered.training_step, training_step. cbn [generated_image optimizer images].
  destruct (recorded_loss model style_targets content_targets (generated_image s))
    as [loss|e]; [|discriminate].
  rewrite !bind_Ok.
  destruct (apply_gradients _ _ _) as [opt' updated].
  destruct (Keras.array_to_img _) as [img|e] eqn:Himg; [|discriminate].
  rewrite bind_Ok. intros [= <-]. cbn [generated_image optimizer images].
  rewrite map_app. reflexivity.
Qed.

Lemma rendered_loop_refines (style_targets : list (Tensor fp)) (content_targets : Tensor fp)
    (n : nat) (s s' : TrainState fp Optimizer Keras.Picture) :
  iterM n (Rendered.training_step model tape_gradient apply_gradients
             style_targets content_targets) s = Ok s' ->
  iterM n (training_step model tape_gradient apply_gradients Keras.array_to_img
             style_targets content_targets)
    (mkTrainState (generated_image s) (optimizer s) (map Ok (images s)))
  = Ok (mkTrainState (generated_image s') (optimizer s') (map Ok (images s'))).
Proof.
  revert s. induction n as [|n IH]; intros s.
  - simpl. intros [= <-]. reflexivity.
  - change (iterM (S n) ?f ?x) with (x' ← f x; iterM n f x').
    destruct (Rendered.training_step _ _ _ _ _ s) as [s1|e] eqn:Hstep; [|discriminate].
    rewrite bind_Ok. intros Hrun.
    rewrite (rendered_step_refines _ _ s s1 Hstep), bind_Ok.
    exact (IH s1 Hrun).
Qed.

Lemma rendered_training_refines (style_image content_image : Tensor fp) (opt opt' : Optimizer)
    (N : Z) (snapshots : list Keras.Picture) :
  Rendered.training model tape_gradient apply_gradients
    style_image content_image opt N = Ok (opt', snapshots) ->
  training model tape_gradient apply_gradients Keras.array_to_img
    style_image content_image opt N = Ok (opt', map Ok snapshots).
Proof.
  unfold Rendered.training, training, training_init.
  destruct (get_features model style_image) as [[st c0]|e]; [|discriminate].
  rewrite !bind_Ok. cbn beta iota.
  destruct (get_features model content_image) as [[g0 ct]|e]; [|discriminate].
  rewrite !bind_Ok. cbn beta iota.
  destruct (Keras.array_to_img (squeeze content_image)) as [first|e]; [|discriminate].
  rewrite bind_Ok.
  destruct (iterM _ _ _) as [s'|e] eqn:Hloop; [|discriminate].
  rewrite bind_Ok. intros [= <- <-].
  apply rendered_loop_refines in Hloop. cbn [generated_image optimizer images map] in Hloop.
  rewrite Hloop, bind_Ok. reflexivity.
Qed.

Variable sshapes : list (list nat).
Variable cshape : list nat.
Hypothesis model_shapes : extractor_shapes model sshapes cshape.
Hypothesis style_taps : sshapes <> [].
Hypothesis style_rank : Forall (fun s => length s = 4%nat) sshapes.
Hypothesis in_place : updates_in_place apply_gradients.

(** A round of the loop on a picture that can be rendered succeeds, appends
    one picture of the same size and leaves a picture that can be
    rendered. *)
Lemma rendered_step_Ok (style_targets : list (Tensor fp)) (content_targets : Tensor fp)
    (s : TrainState fp Optimizer Keras.Picture) (H W : nat) :
  map shape style_targets = map gram_shape sshapes ->
  shape content_targets = cshape ->
  renderable (generated_image s) H W ->
  exists s' img, Rendered.training_step model tape_gradient apply_gradients
      style_targets content_targets s = Ok s' /\
    images s' = images s ++ [img] /\ Keras.pic_size img = (W, H) /\
    renderable (generated_image s') H W.
Proof using model_shapes style_taps style_rank in_place.
  intros Hst Hct Hr.
  destruct (recorded_loss_Ok model sshapes cshape model_shapes style_taps style_rank
              style_targets content_targets (generated_image s) Hst Hct) as (v & Hv).
  unfold Rendered.training_step. rewrite Hv, bind_Ok.
  pose proof (in_place (optimizer s)
    (tape_gradient (recorded_loss model style_targets content_targets) (generated_image s))
    (generated_image s)) as [Hsh Hlen].
  destruct (apply_gradients _ _ _) as [opt' updated]. cbn [snd] in Hsh, Hlen.
  assert (Hr' : renderable (clip_by_value updated (of_Q 0) (of_Q 255)) H W).
  { apply (renderable_same_layout (generated_image s)); [exact Hsh| |exact Hr].
    unfold clip_by_value. cbn [data]. rewrite length_map. exact Hlen. }
  destruct (renderable_Ok _ H W Hr') as (img & Himg & Hsz).
  cbn zeta. rewrite Himg, bind_Ok.
  eexists _, img. split; [reflexivity|]. split; [reflexivity|]. split; assumption.
Qed.

Lemma rendered_loop_Ok (style_targets : list (Tensor fp)) (content_targets : Tensor fp)
    (n : nat) (s : TrainState fp Optimizer Keras.Picture) (H W : nat) :
  map shape style_targets = map gram_shape sshapes ->
  shape content_targets = cshape ->
  renderable (generated_image s) H W ->
  exists s' more, iterM n (Rendered.training_step model tape_gradient apply_gradients
      style_targets content_targets) s = Ok s' /\
    images s' = images s ++ more /\ length more = n /\
    Forall (fun p => Keras.pic_size p = (W, H)) more.
Proof using model_shapes style_taps style_rank in_place.
  intros Hst Hct. revert s. induction n as [|n IH]; intros s Hr.
  - exists s, []. rewrite app_nil_r. repeat split. constructor.
  - destruct (rendered_step_Ok style_targets content_targets s H W Hst Hct Hr)
      as (s1 & img & Hs1 & Himg & Hsz & Hr1).
    destruct (IH s1 Hr1) as (s' & more & Hs' & Hmore & Hlen & Hall).
    exists s', (img :: more). split; [|split; [|split]].
    + change (iterM (S n) ?f ?x) with (x' ← f x; iterM n f x').
      rewrite Hs1, bind_Ok. exact Hs'.
    + rewrite Hmore, Himg, <- app_assoc. reflexivity.
    + simpl. rewrite Hlen. reflexivity.
    + constructor; assumption.
Qed.

End RenderedProperties.

Lemma descend_in_place : updates_in_place Cases.descend.
Proof.
  intros opt grads var. split; [reflexivity|]. unfold Cases.descend. cbn [snd data].
  apply length_imap.
Qed.


(** The run of the witness: the first picture has the samples of the content
    image stretched from 20..148 to 0..255, the later ones those of the
    clamped images stretched the same way. *)
Example training_rendered_two_epochs :
  exists opt' first rest,
    Rendered.training Toy.model (Toy.tape_gradient (Fin 1)) Cases.descend
      Toy.style Cases.ramp (Fin (1 # 2)) 2 = Ok (opt', first :: rest) /\
    data Cases.ramp = map Fin [20; 148; 84; 52; 36; 28; 116; 68; 24; 22; 21; 100] /\
    first = Keras.mkPicture Keras.mode_RGB (2, 2)%nat
              (map Some [0; 255; 127; 63; 31; 15; 191; 95; 7; 3; 1; 159]%Z) /\
    length rest = 2%nat.
Proof. eexists _, _, _. split; [vm_compute; reflexivity|]. repeat split. Qed.


(** X9.  With a number of epochs that is zero or negative, [training] runs
    no round: provided the two forward passes succeed, its outcome is that
    of the conversion of the content image to a picture.  When the
    conversion returns, [training] returns exactly that one picture and
    leaves the optimizer as it was, the loss never computed; when the
    squeezed content image does not have rank 3 (a batch of several pictures,
    a height, a width or a number of channels of 1), [training] raises
    ValueError. *)
Theorem training_no_epoch (model : Tensor fp -> list (Tensor fp))
    (tape_gradient : (Tensor fp -> result fp) -> Tensor fp -> Tensor fp)
    (Optimizer : Type)
    (apply_gradients : Optimizer -> Tensor fp -> Tensor fp -> Optimizer * Tensor fp)
    (style_image content_image : Tensor fp) (opt : Optimizer) (N : Z)
    (fs fc : list (Tensor fp) * Tensor fp) :
  (N <= 0)%Z ->
  get_features model style_image = Ok fs ->
  get_features model content_image = Ok fc ->
  Rendered.training model tape_gradient apply_gradients style_image content_image opt N
    = (first ← Keras.array_to_img (squeeze content_image); Ok (opt, [first])) /\
  (length (shape (squeeze content_image)) <> 3%nat ->
   Rendered.training model tape_gradient apply_gradients style_image content_image opt N
     = Raise ValueError).
Proof.
  intros HN Hfs Hfc.
  assert (Heq : Rendered.training model tape_gradient apply_gradients
                  style_image content_image opt N
    = (first ← Keras.array_to_img (squeeze content_image); Ok (opt, [first]))).
  { unfold Rendered.training. rewrite Hfs, bind_Ok. destruct fs as [st c0].
    cbn beta iota. rewrite Hfc, bind_Ok. destruct fc as [g0 ct]. cbn beta iota.
    rewrite Z2Nat.nonpos by exact HN.
    destruct (Keras.array_to_img (squeeze content_image)); reflexivity. }
  split; [exact Heq|].
  intros Hr. rewrite Heq, (array_to_img_rank _ Hr). reflexivity.
Qed.

Lemma training_no_epoch_witness :
  (-3 <= 0)%Z /\
  (exists fs fc, get_features Toy.model (Toy.style (A := fp)) = Ok fs /\
     get_features Toy.model Cases.pair = Ok fc) /\
  Rendered.training Toy.model (Toy.tape_gradient (Fin 1)) Cases.descend
    Toy.style Cases.pair (Fin (1 # 2)) (-3)
    = (first ← Keras.array_to_img (squeeze Cases.pair); Ok (Fin (1 # 2), [first])) /\
  (length (shape (squeeze Cases.pair)) <> 3%nat ->
   Rendered.training Toy.model (Toy.tape_gradient (Fin 1)) Cases.descend
     Toy.style Cases.pair (Fin (1 # 2)) (-3) = Raise ValueError).
Proof.
  assert (H1 : (-3 <= 0)%Z) by discriminate.
  split; [exact H1|]. split; [eexists _, _; split; reflexivity|].
  exact (training_no_epoch Toy.model (Toy.tape_gradient (Fin 1)) fp Cases.descend
           Toy.style Cases.pair (Fin (1 # 2)) (-3) _ _ H1 eq_refl eq_refl).
Defined.

(** No epoch on a picture that can be rendered and on one that cannot. *)
Example training_no_epoch_runs :
  Rendered.training Toy.model (Toy.tape_gradient (Fin 1)) Cases.descend
    Toy.style Cases.ramp (Fin (1 # 2)) (-3)
  = Ok (Fin (1 # 2),
        [Keras.mkPicture Keras.mode_RGB (2, 2)%nat
           (map Some [0; 255; 127; 63; 31; 15; 191; 95; 7; 3; 1; 159]%Z)]) /\
  Rendered.training Toy.model (Toy.tape_gradient (Fin 1)) Cases.descend
    Toy.style Cases.pair (Fin (1 # 2)) (-3) = Raise ValueError.
Proof. split; vm_compute; reflexivity. Qed.
